(** * ARCADE: the embedded telemetry bridge and the health-scan classifier

  A shallow embedding of [scripts/health-scan.ts] (module [HealthScan]) and
  of the injected agent of [src/lib/bridgeScript.ts] (module [Bridge]),
  with the properties the design document states about them.

  Conventions of the embedding.
  - JavaScript numbers that the code only counts with are [Z]; numbers it
    measures with (luminances, timestamps, frame rates) are exact
    rationals [Q].  Rounding of IEEE doubles is not modelled, and neither
    are NaN and the infinities.
  - Strings are [string]s of ASCII characters; case mapping and white
    space follow JavaScript on the ASCII range.
  - What the browser answers (the DOM, Playwright, localStorage) is an
    explicit argument of the function that asks for it. *)

From Stdlib Require Import ZArith QArith Qround Qabs Qminmax Bool List String Ascii Lia Lqa.
Import ListNotations.

Local Open Scope string_scope.
Local Open Scope Z_scope.

(** ** JavaScript primitives used by both scripts *)

Module Js.

(** [Math.round]: the nearest integer, ties towards plus infinity. *)
Definition round (x : Q) : Z := Qfloor (x + (1 # 2)).

(** [Number(x.toFixed(2))]: two decimals, ties away from zero. *)
Definition toFixed2 (x : Q) : Q :=
  if Qle_bool 0 x
  then Qmake (Qfloor (x * 100 + (1 # 2))) 100
  else - Qmake (Qfloor (- x * 100 + (1 # 2))) 100.

(** [acc + value] folded from 0, as [reduce] does. *)
Definition sum (l : list Q) : Q := fold_left Qplus l 0%Q.

Definition code (c : ascii) : nat := nat_of_ascii c.

Definition isUpper (c : ascii) : bool :=
  (65 <=? code c)%nat && (code c <=? 90)%nat.

Definition isLower (c : ascii) : bool :=
  (97 <=? code c)%nat && (code c <=? 122)%nat.

Definition isDigit (c : ascii) : bool :=
  (48 <=? code c)%nat && (code c <=? 57)%nat.

(** The class [\w] of a regular expression. *)
Definition isWord (c : ascii) : bool :=
  isUpper c || isLower c || isDigit c || (code c =? 95)%nat.

(** The class [\s], which is also what [trim] removes. *)
Definition isSpace (c : ascii) : bool :=
  ((9 <=? code c)%nat && (code c <=? 13)%nat) || (code c =? 32)%nat.

Definition upperChar (c : ascii) : ascii :=
  if isLower c then ascii_of_nat (code c - 32) else c.

Definition lowerChar (c : ascii) : ascii :=
  if isUpper c then ascii_of_nat (code c + 32) else c.

Fixpoint toUpperCase (s : string) : string :=
  match s with
  | EmptyString => EmptyString
  | String c r => String (upperChar c) (toUpperCase r)
  end.

Fixpoint toLowerCase (s : string) : string :=
  match s with
  | EmptyString => EmptyString
  | String c r => String (lowerChar c) (toLowerCase r)
  end.

(** [s.split(sep)[0]] for a one-character separator. *)
Fixpoint splitFirst (sep : ascii) (s : string) : string :=
  match s with
  | EmptyString => EmptyString
  | String c r => if Ascii.eqb c sep then EmptyString else String c (splitFirst sep r)
  end.

Definition startsWithWord (s : string) : bool :=
  match s with
  | EmptyString => false
  | String c _ => isWord c
  end.

(** [s.split(/\bor\b/i)[0]]: the text before the first stand-alone word
    "or", in either case.  [prevWord] tells whether the character just
    before [s] is a word character. *)
Fixpoint beforeOr (prevWord : bool) (s : string) : string :=
  match s with
  | EmptyString => EmptyString
  | String c r =>
      let here :=
        negb prevWord && Ascii.eqb (upperChar c) "O"%char &&
        match r with
        | String d r' => Ascii.eqb (upperChar d) "R"%char && negb (startsWithWord r')
        | EmptyString => false
        end in
      if here then EmptyString else String c (beforeOr (isWord c) r)
  end.

Definition splitOrFirst (s : string) : string := beforeOr false s.

Fixpoint trimStart (s : string) : string :=
  match s with
  | EmptyString => EmptyString
  | String c r => if isSpace c then trimStart r else s
  end.

(** Drops the white space that ends [s]. *)
Fixpoint trimEnd (s : string) : string :=
  match s with
  | EmptyString => EmptyString
  | String c r =>
      match trimEnd r with
      | EmptyString => if isSpace c then EmptyString else String c EmptyString
      | r' => String c r'
      end
  end.

Definition trim (s : string) : string := trimEnd (trimStart s).

(** [s.replace(/\s+/g, ' ')]: every run of white space becomes one space.
    [inRun] tells whether the run [s] continues has already been replaced. *)
Fixpoint collapseFrom (inRun : bool) (s : string) : string :=
  match s with
  | EmptyString => EmptyString
  | String c r =>
      if isSpace c
      then if inRun then collapseFrom true r else String " "%char (collapseFrom true r)
      else String c (collapseFrom false r)
  end.

Definition collapseSpaces (s : string) : string := collapseFrom false s.

Definition startsWith (p s : string) : bool := String.prefix p s.

Fixpoint includes (needle s : string) : bool :=
  String.prefix needle s ||
  match s with
  | EmptyString => false
  | String _ r => includes needle r
  end.

(** [/^[A-Z]$/.test(s)] *)
Definition isSingleCapital (s : string) : bool :=
  match s with
  | String c EmptyString => isUpper c
  | _ => false
  end.

End Js.

(** ** The health scan: [scripts/health-scan.ts] *)

Module HealthScan.

(** *** Data model *)

Inductive GameStatus : Set :=
| working | broken | missing_assets | unknown | flaky.

Definition statusEqb (a b : GameStatus) : bool :=
  match a, b with
  | working, working | broken, broken | missing_assets, missing_assets
  | unknown, unknown | flaky, flaky => true
  | _, _ => false
  end.

Record ManifestControl : Set := {
  mc_device : string;
  mc_input : string;
  mc_action : string
}.

(** [controls?: { movement?: ManifestControl[] }] *)
Record Controls : Set := { ct_movement : option (list ManifestControl) }.

Record ManifestGame : Set := {
  mg_id : string;
  mg_title : string;
  mg_status : GameStatus;
  mg_controls : option Controls
}.

Record FrameSignature : Set := {
  fs_width : Z;
  fs_height : Z;
  fs_luminances : list Q
}.

Record AnimationActivity : Set := {
  aa_tickCount : Z;
  aa_elapsedMs : Q
}.

(** One element of [HealthWindow.metrics]; every field is optional. *)
Record MetricsSample : Set := {
  ms_fps : option Q;
  ms_frameTimeMs : option Q;
  ms_frameSamples : option Z;
  ms_firstPaintMs : option Q;
  ms_devicePixelRatio : option Q
}.

Record HealthWindow : Set := {
  hw_ready : bool;
  hw_metrics : list MetricsSample;
  hw_nativeSize : option (Q * Q);
  hw_devicePixelRatio : Q;
  hw_errors : Z
}.

(** The entries of [issues], before they are joined into the note. *)
Inductive Issue : Set :=
| ReadyNotObserved (timeoutMs : Q)   (* arcade:ready not observed within ..s *)
| HighErrorCount (n : Z)              (* High error count (n) *)
| NoMotionDetected                    (* No motion detected (...) *)
| NoInputResponse.                    (* No basic input response (...) *)

Inductive Note : Set :=
| Pass                                (* 'Pass' *)
| Issues (l : list Issue)             (* issues.join('; ') *)
| Excluded.                           (* 'Excluded (missing assets)' *)

Record HealthResult : Set := {
  hr_id : string;
  hr_title : string;
  hr_ready : bool;
  hr_avgFps : option Q;
  hr_firstPaint : option Q;
  hr_errors : Z;
  hr_stalled : bool;
  hr_noMotion : bool;
  hr_noResponse : bool;
  hr_status : GameStatus;
  hr_previousStatus : GameStatus;
  hr_note : Note
}.

(** *** [selectFirstMovementKey] *)

Definition arrowMap (upper : string) : option string :=
  if String.eqb upper "LEFT" then Some "ArrowLeft"
  else if String.eqb upper "RIGHT" then Some "ArrowRight"
  else if String.eqb upper "UP" then Some "ArrowUp"
  else if String.eqb upper "DOWN" then Some "ArrowDown"
  else None.

Definition keyOfToken (token : string) : option string :=
  let upper := Js.toUpperCase token in
  let arrow :=
    if Js.startsWith "ARROW" upper then
      if Js.includes "LEFT" upper then Some "ArrowLeft"
      else if Js.includes "RIGHT" upper then Some "ArrowRight"
      else if Js.includes "UP" upper then Some "ArrowUp"
      else if Js.includes "DOWN" upper then Some "ArrowDown"
      else None
    else None in
  match arrow with
  | Some k => Some k
  | None =>
      match arrowMap upper with
      | Some k => Some k
      | None =>
          if Js.isSingleCapital upper then Some (Js.toLowerCase upper)
          else if String.eqb upper "SPACE" || String.eqb upper "SPACEBAR" then Some "Space"
          else None
      end
  end.

Definition selectFirstMovementKey (game : ManifestGame) : option string :=
  match mg_controls game with
  | None => None
  | Some c =>
      match ct_movement c with
      | None | Some [] => None
      | Some (first :: _) =>
          let rawInput := mc_input first in
          if String.eqb rawInput "" then None
          else
            let firstSegment :=
              Js.trim
                (Js.splitFirst ","%char
                   (Js.splitFirst "/"%char
                      (Js.splitOrFirst (Js.splitFirst "|"%char rawInput)))) in
            if String.eqb firstSegment "" then None
            else keyOfToken (Js.collapseSpaces firstSegment)
      end
  end.

(** *** [captureCanvasSignature] *)

(** The canvas of the embedded document as the page sees it when a
    snapshot is taken.  [cv_imageData w h] is what [getImageData] reads
    back, as RGBA bytes, after the canvas was drawn into a [w] by [h]
    buffer. *)
Record CanvasSurface := {
  cv_width : Z;
  cv_height : Z;
  cv_rectWidth : Q;
  cv_rectHeight : Q;
  cv_bufferContext : bool;
  cv_imageData : Z -> Z -> list Z
}.

(** [canvas.width || Math.round(canvas.getBoundingClientRect().width)] *)
Definition intrinsicWidth (c : CanvasSurface) : Z :=
  if cv_width c =? 0 then Js.round (cv_rectWidth c) else cv_width c.

Definition intrinsicHeight (c : CanvasSurface) : Z :=
  if cv_height c =? 0 then Js.round (cv_rectHeight c) else cv_height c.

Definition luminance (r g b : Z) : Q :=
  (2126 # 10000) * inject_Z r + (7152 # 10000) * inject_Z g + (722 # 10000) * inject_Z b.

Definition byteAt (data : list Z) (i : nat) : Z := nth i data 0.

Definition luminancesOf (data : list Z) (width height : Z) : list Q :=
  map (fun i => luminance (byteAt data (4 * i)) (byteAt data (4 * i + 1)) (byteAt data (4 * i + 2)))
      (seq 0 (Z.to_nat (width * height))).

(** [surface] is [None] when the iframe, its document, the canvas or its
    2d context is missing, or when reading them throws: every such path
    returns null. *)
Definition captureCanvasSignature (surface : option CanvasSurface) (downscaleWidth : Z)
  : option FrameSignature :=
  match surface with
  | None => None
  | Some canvas =>
      let iw := intrinsicWidth canvas in
      let ih := intrinsicHeight canvas in
      if (iw =? 0) || (ih =? 0) then None
      else
        let scale := Qmin 1 (inject_Z downscaleWidth / inject_Z iw) in
        let width := Z.max 1 (Js.round (inject_Z iw * scale)) in
        let height := Z.max 1 (Js.round (inject_Z ih * scale)) in
        if negb (cv_bufferContext canvas) then None
        else
          Some {| fs_width := width;
                  fs_height := height;
                  fs_luminances := luminancesOf (cv_imageData canvas width height) width height |}
  end.

(** *** [computeSignatureDelta] *)

Definition totalDifference (la lb : list Q) (length : nat) : Q :=
  fold_left (fun total i => total + Qabs (nth i la 0 - nth i lb 0))%Q (seq 0 length) 0%Q.

Definition computeSignatureDelta (a b : option FrameSignature) : option Q :=
  match a, b with
  | Some a, Some b =>
      if negb (fs_width a =? fs_width b) || negb (fs_height a =? fs_height b) then None
      else
        let length := List.length (fs_luminances a) in
        if (length =? 0)%nat || negb (length =? List.length (fs_luminances b))%nat then None
        else Some (totalDifference (fs_luminances a) (fs_luminances b) length
                   / inject_Z (Z.of_nat length * 255))%Q
  | _, _ => None
  end.

(** *** The probe of one entry: the body of the loop of [main] *)

(** What happens in the [try] block that presses the movement key: the
    block throws, or it runs to the third snapshot. *)
Inductive KeyPressOutcome :=
| TryThrows
| Pressed (surfaceC : option CanvasSurface).

(** What the browser shows while one entry is probed, in the order in
    which [main] asks for it. *)
Record ProbeObservation := {
  readySignal : bool;                                 (* await readyPromise is truthy *)
  fallbackCanvas : option (Z * Z);                    (* probeCanvasDimensions(page) *)
  health : option HealthWindow;                       (* window.__healthScan *)
  consoleErrorCount : Z;                              (* pageerror and console error events *)
  animationActivity : option AnimationActivity;       (* measureAnimationActivity(page) *)
  surfaceA : option CanvasSurface;
  surfaceB : option CanvasSurface;
  keyPress : string -> KeyPressOutcome                (* page.keyboard.press(key) and after *)
}.

Definition downscaleWidth : Z := 128.

Definition belowThreshold (delta : option Q) : bool :=
  match delta with
  | Some d => negb (Qle_bool (1 # 100) d)
  | None => false
  end.

Definition shouldMarkBroken (stalled noMotion noResponse : bool) (totalErrors : Z) : bool :=
  stalled || noMotion || noResponse || (3 <? totalErrors).

Definition fpsSamplesOf (metrics : list MetricsSample) : list Q :=
  flat_map (fun sample => match ms_fps sample with Some v => [v] | None => [] end) metrics.

Definition firstPaintOf (metrics : list MetricsSample) : option Q :=
  match find (fun sample => match ms_firstPaintMs sample with Some _ => true | None => false end)
             metrics with
  | Some sample => ms_firstPaintMs sample
  | None => None
  end.

Definition isReady (o : ProbeObservation) : bool :=
  if readySignal o then true
  else match fallbackCanvas o with Some _ => true | None => false end.

Definition noMotionOf (o : ProbeObservation) (activity : option AnimationActivity) : bool :=
  let signatureA := captureCanvasSignature (surfaceA o) downscaleWidth in
  let signatureB := captureCanvasSignature (surfaceB o) downscaleWidth in
  let motionDelta := computeSignatureDelta signatureA signatureB in
  let tickCount := match activity with Some a => aa_tickCount a | None => 0 end in
  belowThreshold motionDelta || (tickCount <=? 30).

Definition noResponseOf (game : ManifestGame) (o : ProbeObservation) : bool :=
  let signatureB := captureCanvasSignature (surfaceB o) downscaleWidth in
  match selectFirstMovementKey game, signatureB with
  | Some movementKey, Some _ =>
      match keyPress o movementKey with
      | TryThrows => true
      | Pressed surfaceC =>
          let signatureC := captureCanvasSignature surfaceC downscaleWidth in
          belowThreshold (computeSignatureDelta signatureB signatureC)
      end
  | _, _ => false
  end.

Definition probeGame (readinessTimeout : Q) (game : ManifestGame) (o : ProbeObservation)
  : HealthResult :=
  let ready := isReady o in
  let metrics := match health o with Some h => hw_metrics h | None => [] end in
  let fpsSamples := fpsSamplesOf metrics in
  let avgFps0 :=
    match fpsSamples with
    | [] => None
    | _ => Some (Js.toFixed2 (Js.sum fpsSamples / inject_Z (Z.of_nat (List.length fpsSamples)))%Q)
    end in
  let firstPaint := firstPaintOf metrics in
  let totalErrors :=
    (match health o with Some h => hw_errors h | None => 0 end) + consoleErrorCount o in
  let activity := if ready then animationActivity o else None in
  let avgFps :=
    match activity with
    | Some a =>
        if negb (Qle_bool (aa_elapsedMs a) 0)
        then Some (Js.toFixed2 (inject_Z (aa_tickCount a) / (aa_elapsedMs a / 1000))%Q)
        else avgFps0
    | None => avgFps0
    end in
  let noMotion := if ready then noMotionOf o activity else false in
  let noResponse := if ready then noResponseOf game o else false in
  let stalled := negb ready in
  let issues :=
    ((if stalled then [ReadyNotObserved readinessTimeout] else []) ++
     (if 3 <? totalErrors then [HighErrorCount totalErrors] else []) ++
     (if noMotion then [NoMotionDetected] else []) ++
     (if noResponse then [NoInputResponse] else []))%list in
  let derivedStatus :=
    if shouldMarkBroken stalled noMotion noResponse totalErrors then broken else mg_status game in
  {| hr_id := mg_id game;
     hr_title := mg_title game;
     hr_ready := ready;
     hr_avgFps := avgFps;
     hr_firstPaint := firstPaint;
     hr_errors := totalErrors;
     hr_stalled := stalled;
     hr_noMotion := noMotion;
     hr_noResponse := noResponse;
     hr_status := derivedStatus;
     hr_previousStatus := mg_status game;
     hr_note := match issues with [] => Pass | _ => Issues issues end |}.

(** The result pushed for an entry whose status is 'missing-assets'. *)
Definition excludedResult (game : ManifestGame) : HealthResult :=
  {| hr_id := mg_id game;
     hr_title := mg_title game;
     hr_ready := false;
     hr_avgFps := None;
     hr_firstPaint := None;
     hr_errors := 0;
     hr_stalled := true;
     hr_noMotion := true;
     hr_noResponse := true;
     hr_status := mg_status game;
     hr_previousStatus := mg_status game;
     hr_note := Excluded |}.

(** The loop of [main] over [manifest.games], in a run in which every
    awaited call of the browser resolves; [observe i] is what the browser
    shows for the entry at position [i].  A call that rejects outside the
    [try] block of the key press ends [main] without any result, and one
    that stays pending keeps it waiting: such runs have no results to
    speak of. *)
Fixpoint scanFrom (readinessTimeout : Q) (observe : nat -> ProbeObservation)
         (i : nat) (games : list ManifestGame) : list HealthResult :=
  match games with
  | [] => []
  | game :: rest =>
      (if statusEqb (mg_status game) missing_assets
       then excludedResult game
       else probeGame readinessTimeout game (observe i))
      :: scanFrom readinessTimeout observe (S i) rest
  end.

Definition scanGames (readinessTimeout : Q) (observe : nat -> ProbeObservation)
           (games : list ManifestGame) : list HealthResult :=
  scanFrom readinessTimeout observe 0 games.

(** The movement controls an entry declares: [game.controls?.movement],
    none when either level is absent. *)
Definition movementControls (game : ManifestGame) : list ManifestControl :=
  match mg_controls game with
  | Some c => match ct_movement c with Some l => l | None => [] end
  | None => []
  end.

(** *** Reconciliation: the [writeChanges] block of [main] *)

Definition setStatus (game : ManifestGame) (s : GameStatus) : ManifestGame :=
  {| mg_id := mg_id game;
     mg_title := mg_title game;
     mg_status := s;
     mg_controls := mg_controls game |}.

(** [manifest.games.find(entry => entry.id === id)] followed by
    [target.status = 'broken']: the first entry with that id is updated
    in place.  The boolean tells whether [find] found one. *)
Fixpoint markBroken (id : string) (games : list ManifestGame) : list ManifestGame * bool :=
  match games with
  | [] => ([], false)
  | entry :: rest =>
      if String.eqb (mg_id entry) id then (setStatus entry broken :: rest, true)
      else let (rest', found) := markBroken id rest in (entry :: rest', found)
  end.

(** The body of [results.forEach], on the pair of the manifest in memory
    and [manifestChanged]. *)
Definition reconcileStep (state : list ManifestGame * bool) (result : HealthResult)
  : list ManifestGame * bool :=
  let (games, manifestChanged) := state in
  if statusEqb (hr_status result) broken && negb (statusEqb (hr_previousStatus result) broken)
  then let (games', found) := markBroken (hr_id result) games in
       (games', manifestChanged || found)
  else state.

(** The outcome of reconciliation: the manifest in memory, and what was
    written to games.manifest.json, if anything was. *)
Record Reconciled := {
  rc_manifest : list ManifestGame;
  rc_written : option (list ManifestGame)
}.

Definition reconcile (writeChanges : bool) (results : list HealthResult)
           (games : list ManifestGame) : Reconciled :=
  if writeChanges then
    let (games', manifestChanged) := fold_left reconcileStep results (games, false) in
    {| rc_manifest := games';
       rc_written := if manifestChanged then Some games' else None |}
  else {| rc_manifest := games; rc_written := None |}.

(** *** [measureAnimationActivity] *)

(** What the measurement comes to: no iframe or no window to measure in
    (null), frames that stop before the window of 2 seconds is over (the
    promise stays pending), or the count. *)
Inductive Measurement : Set :=
| Unavailable
| Pending
| Measured (activity : AnimationActivity).

(** The loop of [step]: [readings] are the values of [performance.now()]
    at the animation frames that follow, [ticks] the frames counted so
    far. *)
Fixpoint countTicks (start : Q) (readings : list Q) (ticks : Z) : Measurement :=
  match readings with
  | [] => Pending
  | reading :: rest =>
      let elapsed := (reading - start)%Q in
      if Qle_bool 2000 elapsed
      then Measured {| aa_tickCount := ticks + 1; aa_elapsedMs := elapsed |}
      else countTicks start rest (ticks + 1)
  end.

(** [frameWindow] is the clock of the embedded window when the loop
    starts and at the frames after that, when there is such a window. *)
Definition measureAnimationActivity (frameWindow : option (Q * list Q)) : Measurement :=
  match frameWindow with
  | None => Unavailable
  | Some (start, readings) => countTicks start readings 0
  end.

(** No frame comes later than [gap] after the one before it, the first
    one no later than [gap] after [previous]. *)
Fixpoint gapsAtMost (gap previous : Q) (readings : list Q) : Prop :=
  match readings with
  | [] => True
  | reading :: rest => (reading - previous <= gap)%Q /\ gapsAtMost gap reading rest
  end.

(** *** [parseCliArgs] *)

Record CliOptions : Set := {
  writeChanges : bool;
  reportPath : option string;
  markdownPath : option string
}.

Inductive CliError : Set :=
| MissingValue (flag : string)        (* Missing value for <flag> *)
| UnknownArgument (arg : string).     (* Unknown argument: <arg> *)

(** What follows the first [sep] of [s], when there is one. *)
Fixpoint afterFirst (sep : ascii) (s : string) : option string :=
  match s with
  | EmptyString => None
  | String c r => if Ascii.eqb c sep then Some r else afterFirst sep r
  end.

(** [arg.split('=')[1]]: undefined when [arg] has no '='. *)
Definition valueFromEquals (arg : string) : option string :=
  match afterFirst "="%char arg with
  | Some r => Some (Js.splitFirst "="%char r)
  | None => None
  end.

Definition truthy (s : option string) : bool :=
  match s with
  | Some v => negb (String.eqb v "")
  | None => false
  end.

Definition setOption (flag value : string) (options : CliOptions) : CliOptions :=
  if String.eqb flag "--report"
  then {| writeChanges := writeChanges options;
          reportPath := Some value;
          markdownPath := markdownPath options |}
  else {| writeChanges := writeChanges options;
          reportPath := reportPath options;
          markdownPath := Some value |}.

(** The loop of [parseCliArgs] from the argument at hand to the last
    one; [resolve] is [resolve(process.cwd(), _)].  Where [consume] takes
    the next argument, the loop goes on after it. *)
Fixpoint parseFrom (resolve : string -> string) (argv : list string) (options : CliOptions)
  : CliOptions + CliError :=
  match argv with
  | [] => inl options
  | arg :: rest =>
      if String.eqb arg "--write"
      then parseFrom resolve rest {| writeChanges := true;
                                     reportPath := reportPath options;
                                     markdownPath := markdownPath options |}
      else
        let flag := Js.splitFirst "="%char arg in
        if String.eqb flag "--report" || String.eqb flag "--markdown" then
          match valueFromEquals arg with
          | Some v =>
              if negb (String.eqb v "")
              then parseFrom resolve rest (setOption flag (resolve v) options)
              else
                match rest with
                | next :: rest' =>
                    if negb (String.eqb next "") && negb (Js.startsWith "--" next)
                    then parseFrom resolve rest' (setOption flag (resolve next) options)
                    else inr (MissingValue flag)
                | [] => inr (MissingValue flag)
                end
          | None =>
              match rest with
              | next :: rest' =>
                  if negb (String.eqb next "") && negb (Js.startsWith "--" next)
                  then parseFrom resolve rest' (setOption flag (resolve next) options)
                  else inr (MissingValue flag)
              | [] => inr (MissingValue flag)
              end
          end
        else inr (UnknownArgument arg)
  end.

Definition parseCliArgs (resolve : string -> string) (argv : list string)
  : CliOptions + CliError :=
  parseFrom resolve argv {| writeChanges := false; reportPath := None; markdownPath := None |}.

(** *** The listener that [initialiseHealthProbe] installs in the page *)

(** [data.payload], with the fields the listener and the scan read. *)
Record PagePayload : Set := {
  pp_canvasSize : option (Q * Q);
  pp_sample : MetricsSample
}.

Record PageData : Set := {
  pd_source : string;
  pd_type : string;
  pd_payload : option PagePayload
}.

Record PageMessage : Set := {
  pm_origin : string;
  pm_data : option PageData
}.

Definition emptySample : MetricsSample :=
  {| ms_fps := None; ms_frameTimeMs := None; ms_frameSamples := None;
     ms_firstPaintMs := None; ms_devicePixelRatio := None |}.

(** [data.payload?.devicePixelRatio], when it is truthy. *)
Definition payloadRatio (payload : option PagePayload) : option Q :=
  match payload with
  | Some p =>
      match ms_devicePixelRatio (pp_sample p) with
      | Some q => if Qeq_bool q 0 then None else Some q
      | None => None
      end
  | None => None
  end.

Definition withRatio (payload : option PagePayload) (current : Q) : Q :=
  match payloadRatio payload with
  | Some q => q
  | None => current
  end.

(** The window's [__healthScan] before any message. *)
Definition initialHealth (devicePixelRatio : Q) : HealthWindow :=
  {| hw_ready := false; hw_metrics := []; hw_nativeSize := None;
     hw_devicePixelRatio := devicePixelRatio; hw_errors := 0 |}.

Definition healthListener (windowOrigin : string) (h : HealthWindow) (event : PageMessage)
  : HealthWindow :=
  if negb (String.eqb (pm_origin event) windowOrigin) then h
  else
    match pm_data event with
    | None => h
    | Some d =>
        if negb (String.eqb (pd_source d) "arcade-bridge") then h
        else if String.eqb (pd_type d) "arcade:ready" then
          {| hw_ready := true;
             hw_metrics := hw_metrics h;
             hw_nativeSize :=
               match pd_payload d with
               | Some p => match pp_canvasSize p with
                           | Some size => Some size
                           | None => hw_nativeSize h
                           end
               | None => hw_nativeSize h
               end;
             hw_devicePixelRatio := withRatio (pd_payload d) (hw_devicePixelRatio h);
             hw_errors := hw_errors h |}
        else if String.eqb (pd_type d) "arcade:metrics" then
          {| hw_ready := hw_ready h;
             hw_metrics :=
               (hw_metrics h ++
                [match pd_payload d with Some p => pp_sample p | None => emptySample end])%list;
             hw_nativeSize := hw_nativeSize h;
             hw_devicePixelRatio := withRatio (pd_payload d) (hw_devicePixelRatio h);
             hw_errors := hw_errors h |}
        else if String.eqb (pd_type d) "arcade:error" then
          {| hw_ready := hw_ready h;
             hw_metrics := hw_metrics h;
             hw_nativeSize := hw_nativeSize h;
             hw_devicePixelRatio := hw_devicePixelRatio h;
             hw_errors := hw_errors h + 1 |}
        else h
    end.

(** The messages the listener lets through, by type. *)
Definition fromBridge (windowOrigin type : string) (event : PageMessage) : bool :=
  String.eqb (pm_origin event) windowOrigin &&
  match pm_data event with
  | Some d => String.eqb (pd_source d) "arcade-bridge" && String.eqb (pd_type d) type
  | None => false
  end.

(** *** Shapes that the results are checked against *)

(** What [selectFirstMovementKey] makes of the input description of the
    first movement control. *)
Definition keyOfInput (rawInput : string) : option string :=
  if String.eqb rawInput "" then None
  else
    let firstSegment :=
      Js.trim
        (Js.splitFirst ","%char
           (Js.splitFirst "/"%char
              (Js.splitOrFirst (Js.splitFirst "|"%char rawInput)))) in
    if String.eqb firstSegment "" then None
    else keyOfToken (Js.collapseSpaces firstSegment).

(** The keys that [selectFirstMovementKey] hands to the keyboard: an
    arrow key, the space bar, or one small letter. *)
Definition isMovementKey (key : string) : bool :=
  String.eqb key "ArrowLeft" || String.eqb key "ArrowRight" ||
  String.eqb key "ArrowUp" || String.eqb key "ArrowDown" ||
  String.eqb key "Space" ||
  match key with
  | String c EmptyString => Js.isLower c
  | _ => false
  end.

Definition inByteRange (q : Q) : Prop := (0 <= q <= 255)%Q.

Definition isByte (z : Z) : Prop := 0 <= z <= 255.

(** The issues that the flags of a result call for, in the order in which
    [main] collects them. *)
Definition expectedIssues (timeout : Q) (r : HealthResult) : list Issue :=
  ((if hr_stalled r then [ReadyNotObserved timeout] else []) ++
   (if 3 <? hr_errors r then [HighErrorCount (hr_errors r)] else []) ++
   (if hr_noMotion r then [NoMotionDetected] else []) ++
   (if hr_noResponse r then [NoInputResponse] else []))%list.

(** A result that this run turned to 'broken'. *)
Definition newlyBroken (r : HealthResult) : bool :=
  statusEqb (hr_status r) broken && negb (statusEqb (hr_previousStatus r) broken).

(** An entry of the manifest after reconciliation, against the same
    entry before: it is the same record, or the same record with the
    status 'broken' on account of a result for its id. *)
Definition touched (results : list HealthResult) (g g' : ManifestGame) : Prop :=
  g' = g \/
  (g' = setStatus g broken /\
   exists r, In r results /\ hr_id r = mg_id g /\
             hr_status r = broken /\ hr_previousStatus r <> broken).

End HealthScan.

(** ** The injected agent: [BRIDGE_SCRIPT] of [src/lib/bridgeScript.ts] *)

Module Bridge.

Definition BRIDGE_PARENT_SOURCE : string := "arcade-parent".
Definition BRIDGE_SOURCE : string := "arcade-bridge".

(** *** What the agent does to its surroundings *)

Record CanvasSize : Set := { width : Q; height : Q }.

Record MetricsPayload : Set := {
  fps : Q;
  frameTimeMs : Q;
  frameSamples : Z;
  canvasSize : option CanvasSize;
  firstPaintMs : option Q;
  devicePixelRatio : Q
}.

(** One element of [entries] in a highscores reply: [{ key, value }]. *)
Definition Entry : Set := (string * option string)%type.

Inductive Payload : Set :=
| Metrics (m : MetricsPayload)
| PauseState (state : string)
| EnumerationError (message : string)     (* the stack of the payload is left out *)
| Highscores (entries : list Entry).

(** [post type payload] sends [{ source: SOURCE, type, payload }] to the
    parent window; the two dispatches are [window.dispatchEvent] and
    [document.dispatchEvent] of a [CustomEvent] with the given name. *)
Inductive Effect : Set :=
| DispatchWindow (name : string)
| DispatchDocument (name : string)
| Post (type : string) (payload : Payload).

(** *** [recordFrame] *)

Record MetricsState : Set := {
  lastTimestamp : option Q;
  frameCount : Z;
  frameTimes : list Q;
  lastPost : Q;
  firstPaint : option Q;
  start : Q
}.

(** The [canvas] element that [document.querySelector] finds. *)
Record CanvasElement : Set := {
  el_width : Z;
  el_height : Z;
  el_rectWidth : Q;
  el_rectHeight : Q
}.

(** What the embedded document answers while one frame is recorded. *)
Record Document : Set := {
  now : Q;                            (* performance.now() *)
  canvas : option CanvasElement;      (* document.querySelector('canvas') *)
  pixelRatio : Q                      (* window.devicePixelRatio || 1 *)
}.

Definition detectCanvas (doc : Document) : option CanvasSize :=
  match canvas doc with
  | None => None
  | Some c =>
      Some {| width := if el_width c =? 0 then el_rectWidth c else inject_Z (el_width c);
              height := if el_height c =? 0 then el_rectHeight c else inject_Z (el_height c) |}
  end.

(** [frameTimes.push(delta)], then [shift()] when more than 60 are kept. *)
Definition pushFrameTime (times : list Q) (delta : Q) : list Q :=
  let times' := (times ++ [delta])%list in
  if (60 <? List.length times')%nat then tl times' else times'.

Definition noteFrame (doc : Document) (timestamp : Q) (s : MetricsState) : MetricsState :=
  match lastTimestamp s with
  | Some previous =>
      {| lastTimestamp := Some timestamp;
         frameCount := frameCount s + 1;
         frameTimes := pushFrameTime (frameTimes s) (timestamp - previous);
         lastPost := lastPost s;
         firstPaint := match firstPaint s with
                       | None => Some (now doc - start s)%Q
                       | Some p => Some p
                       end;
         start := start s |}
  | None =>
      {| lastTimestamp := Some timestamp;
         frameCount := frameCount s;
         frameTimes := frameTimes s;
         lastPost := lastPost s;
         firstPaint := firstPaint s;
         start := start s |}
  end.

Definition metricsOf (doc : Document) (s : MetricsState) : MetricsPayload :=
  let count := List.length (frameTimes s) in
  let average :=
    if (0 <? count)%nat then (Js.sum (frameTimes s) / inject_Z (Z.of_nat count))%Q else 0%Q in
  let rate := if negb (Qle_bool average 0) then (1000 / average)%Q else 0%Q in
  {| fps := Js.toFixed2 rate;
     frameTimeMs := Js.toFixed2 average;
     frameSamples := Z.of_nat count;
     canvasSize := detectCanvas doc;
     firstPaintMs := firstPaint s;
     devicePixelRatio := pixelRatio doc |}.

Definition recordFrame (doc : Document) (timestamp : Q) (s : MetricsState)
  : MetricsState * list Effect :=
  let s' := noteFrame doc timestamp s in
  if Qle_bool 100 (timestamp - lastPost s')
  then ({| lastTimestamp := lastTimestamp s';
           frameCount := 0;
           frameTimes := frameTimes s';
           lastPost := timestamp;
           firstPaint := firstPaint s';
           start := start s' |},
        [Post "arcade:metrics" (Metrics (metricsOf doc s'))])
  else (s', []).

(** The frame recorder fed a sequence of animation frames, each with its
    timestamp and what the document answers then.  The log pairs every
    message with the timestamp of the frame that posted it. *)
Fixpoint recordFrames (s : MetricsState) (frames : list (Q * Document))
  : list (Q * Effect) :=
  match frames with
  | [] => []
  | (timestamp, doc) :: rest =>
      let (s', out) := recordFrame doc timestamp s in
      (map (pair timestamp) out ++ recordFrames s' rest)%list
  end.

Definition isMetricsPost (e : Effect) : bool :=
  match e with
  | Post type _ => String.eqb type "arcade:metrics"
  | _ => false
  end.

(** The timestamps at which metrics messages went out, in order. *)
Definition metricsTimes (s : MetricsState) (frames : list (Q * Document)) : list Q :=
  map fst (filter (fun entry => isMetricsPost (snd entry)) (recordFrames s frames)).

(** *** The message handler *)

(** [event.data], when it is an object: its [source], and its [type]
    when it has one. *)
Record MessageData : Set := {
  source : string;
  type : option string
}.

Record MessageEvent : Set := {
  data : option MessageData;
  origin : string
}.

(** A call into [window.localStorage] returns or throws. *)
Inductive Attempt (A : Type) : Type :=
| Returns (a : A)
| Throws.
Arguments Returns {A} a.
Arguments Throws {A}.

Record Storage := {
  st_length : Attempt nat;                          (* window.localStorage.length *)
  st_key : nat -> Attempt (option string);          (* window.localStorage.key(i) *)
  st_getItem : string -> Attempt (option string)    (* window.localStorage.getItem(key) *)
}.

(** The body of the enumeration loop at index [i]: it throws, it skips
    the index ([continue]), or it has an entry to push. *)
Definition readEntry (st : Storage) (i : nat) : Attempt (option Entry) :=
  match st_key st i with
  | Throws => Throws
  | Returns None => Returns None
  | Returns (Some key) =>
      if String.eqb key "" then Returns None
      else match st_getItem st key with
           | Throws => Throws
           | Returns value => Returns (Some (key, value))
           end
  end.

(** The loop from index [i] with [steps] indices left; the boolean tells
    whether the loop was left by an exception. *)
Fixpoint enumerateFrom (st : Storage) (i steps : nat) (entries : list Entry)
  : list Entry * bool :=
  match steps with
  | O => (entries, false)
  | S steps' =>
      match readEntry st i with
      | Throws => (entries, true)
      | Returns None => enumerateFrom st (S i) steps' entries
      | Returns (Some entry) => enumerateFrom st (S i) steps' (entries ++ [entry])%list
      end
  end.

Definition enumerate (st : Storage) : list Entry * bool :=
  match st_length st with
  | Throws => ([], true)
  | Returns n => enumerateFrom st 0 n []
  end.

Definition requestHighscores (st : Storage) : list Effect :=
  let (entries, threw) := enumerate st in
  ((if threw
    then [Post "arcade:error" (EnumerationError "Failed to enumerate localStorage")]
    else []) ++
   [Post "arcade:highscores" (Highscores entries)])%list.

Definition isPauseControl (type : string) : bool :=
  String.eqb type "arcade:focus" || String.eqb type "arcade:blur" ||
  String.eqb type "arcade:pause" || String.eqb type "arcade:resume".

(** The ['message'] listener; [ORIGIN] is [window.origin] at injection. *)
Definition handleMessage (ORIGIN : string) (st : Storage) (event : MessageEvent)
  : list Effect :=
  match data event with
  | None => []
  | Some d =>
      if negb (String.eqb (source d) BRIDGE_PARENT_SOURCE) then []
      else if negb (String.eqb (origin event) ORIGIN) then []
      else
        match type d with
        | None => []
        | Some type =>
            if String.eqb type "" then []
            else if isPauseControl type then
              [DispatchWindow type; DispatchDocument type;
               Post "arcade:pause-state" (PauseState type)]
            else if String.eqb type "arcade:toggle-help" then
              [DispatchWindow "arcade:toggle-help"; DispatchDocument "arcade:toggle-help"]
            else if String.eqb type "arcade:request-highscores" then requestHighscores st
            else []
        end
  end.

(** *** [sendReadyOnce] and the wrapped [requestAnimationFrame] *)

(** The payload of an arcade:ready message. *)
Record ReadyPayload : Set := {
  rp_canvasSize : CanvasSize;
  rp_devicePixelRatio : Q
}.

(** [sendReadyOnce] on the flag [readySent]: the flag afterwards, and the
    arcade:ready message when one is posted. *)
Definition sendReadyOnce (doc : Document) (readySent : bool) : bool * option ReadyPayload :=
  if readySent then (true, None)
  else
    match detectCanvas doc with
    | Some size =>
        (true, Some {| rp_canvasSize := size; rp_devicePixelRatio := pixelRatio doc |})
    | None => (false, None)
    end.

(** The triggers of [sendReadyOnce] one after the other (the mutation
    observer, DOMContentLoaded, load, the timer, every animation frame),
    each with the document as it is then: the ready messages posted. *)
Fixpoint readyPosts (readySent : bool) (triggers : list Document) : list ReadyPayload :=
  match triggers with
  | [] => []
  | doc :: rest =>
      let (sent, out) := sendReadyOnce doc readySent in
      (match out with Some p => [p] | None => [] end ++ readyPosts sent rest)%list
  end.

Definition readyAfter (readySent : bool) (triggers : list Document) : bool :=
  fold_left (fun sent doc => fst (sendReadyOnce doc sent)) triggers readySent.

Record AgentState : Set := {
  metricsState : MetricsState;
  readySent : bool
}.

(** What one animation frame does, in order. *)
Inductive FrameEvent : Set :=
| Telemetry (e : Effect)               (* posted by recordFrame *)
| ReadyPosted (p : ReadyPayload)       (* posted by sendReadyOnce *)
| Callback (timestamp : Q).            (* callback(timestamp) *)

(** The function that the wrapped [requestAnimationFrame] hands to the
    original one: [recordFrame], [sendReadyOnce], then the callback of the
    embedded program. *)
Definition onAnimationFrame (doc : Document) (timestamp : Q) (a : AgentState)
  : AgentState * list FrameEvent :=
  let (m, posted) := recordFrame doc timestamp (metricsState a) in
  let (sent, ready) := sendReadyOnce doc (readySent a) in
  ({| metricsState := m; readySent := sent |},
   (map Telemetry posted ++
    match ready with Some p => [ReadyPosted p] | None => [] end ++
    [Callback timestamp])%list).

Fixpoint animationFrames (a : AgentState) (frames : list (Q * Document)) : list FrameEvent :=
  match frames with
  | [] => []
  | (timestamp, doc) :: rest =>
      let (a', out) := onAnimationFrame doc timestamp a in
      (out ++ animationFrames a' rest)%list
  end.

Definition callbackOf (e : FrameEvent) : option Q :=
  match e with Callback t => Some t | _ => None end.

Definition readyOf (e : FrameEvent) : option ReadyPayload :=
  match e with ReadyPosted p => Some p | _ => None end.

Definition metricsOfEvent (e : FrameEvent) : option MetricsPayload :=
  match e with Telemetry (Post _ (Metrics m)) => Some m | _ => None end.

(** [filter] and [map] in one pass. *)
Fixpoint pick {A B : Type} (f : A -> option B) (l : list A) : list B :=
  match l with
  | [] => []
  | x :: rest => match f x with Some y => y :: pick f rest | None => pick f rest end
  end.

(** The state of the recorder after a sequence of frames. *)
Definition metricsAfter (s : MetricsState) (frames : list (Q * Document)) : MetricsState :=
  fold_left (fun s frame => fst (recordFrame (snd frame) (fst frame) s)) frames s.

Definition metricsPayloads (s : MetricsState) (frames : list (Q * Document))
  : list MetricsPayload :=
  pick (fun entry => match snd entry with Post _ (Metrics m) => Some m | _ => None end)
       (recordFrames s frames).

(** The last [n] elements of [l]. *)
Definition lastN {A : Type} (n : nat) (l : list A) : list A := skipn (List.length l - n) l.

Definition hasCanvas (doc : Document) : bool :=
  match canvas doc with Some _ => true | None => false end.

(** The ready message that a trigger posts when it finds the canvas of
    [doc]. *)
Definition readyFor (doc : Document) : list ReadyPayload :=
  match detectCanvas doc with
  | Some size => [{| rp_canvasSize := size; rp_devicePixelRatio := pixelRatio doc |}]
  | None => []
  end.

(** The differences between consecutive timestamps, starting from the
    last timestamp recorded, if there is one. *)
Fixpoint deltasFrom (previous : option Q) (timestamps : list Q) : list Q :=
  match timestamps with
  | [] => []
  | t :: rest =>
      (match previous with Some p => [(t - p)%Q] | None => [] end ++ deltasFrom (Some t) rest)%list
  end.

(** The types of control message that the handler acts on. *)
Definition controlTypes : list string :=
  ["arcade:focus"; "arcade:blur"; "arcade:pause"; "arcade:resume";
   "arcade:toggle-help"; "arcade:request-highscores"].

(** The message went through the checks of the handler: it carries the
    source tag of the host, it comes from the agent's own origin, and its
    type is [ty]. *)
Definition accepted (ORIGIN : string) (event : MessageEvent) (ty : string) : Prop :=
  exists d, data event = Some d /\
            source d = BRIDGE_PARENT_SOURCE /\
            origin event = ORIGIN /\
            type d = Some ty.

Definition isHighscoresPost (e : Effect) : bool :=
  match e with
  | Post type _ => String.eqb type "arcade:highscores"
  | _ => false
  end.

(** The entries that the indices below [k] contribute when none of them
    throws: those with a key, in the order of the indices. *)
Definition entriesFrom (st : Storage) (i k : nat) : list Entry :=
  flat_map (fun j => match readEntry st j with
                     | Returns (Some entry) => [entry]
                     | _ => []
                     end) (seq i k).

Definition entriesBelow (st : Storage) (k : nat) : list Entry := entriesFrom st 0 k.

(** Every timestamp of [times] is at least 100 after the one before it,
    the first one at least 100 after [last]. *)
Fixpoint spaced (last : Q) (times : list Q) : Prop :=
  match times with
  | [] => True
  | t :: rest => (100 <= t - last)%Q /\ spaced t rest
  end.

End Bridge.

(** ** The host side of the bridge: [src/lib/injectBridge.ts] *)

Module Inject.

(** [postToGame]: the message event that the window of the iframe
    receives, when the iframe has a window whose origin is the target
    origin of the call, [window.location.origin] of the host. *)
Definition postToGame (frameOrigin : option string) (hostOrigin : string) (type : string)
  : option Bridge.MessageEvent :=
  match frameOrigin with
  | None => None
  | Some o =>
      if String.eqb o hostOrigin
      then Some {| Bridge.data := Some {| Bridge.source := Bridge.BRIDGE_PARENT_SOURCE;
                                          Bridge.type := Some type |};
                   Bridge.origin := hostOrigin |}
      else None
  end.

(** [post] of the agent, seen from the page that embeds it: the message
    event that the page receives, when the origin of the page is the
    target origin [ORIGIN] of the agent. *)
Definition delivered (pageOrigin ORIGIN type : string) (payload : option HealthScan.PagePayload)
  : option HealthScan.PageMessage :=
  if String.eqb pageOrigin ORIGIN
  then Some {| HealthScan.pm_origin := ORIGIN;
               HealthScan.pm_data :=
                 Some {| HealthScan.pd_source := Bridge.BRIDGE_SOURCE;
                         HealthScan.pd_type := type;
                         HealthScan.pd_payload := payload |} |}
  else None.

Definition sizeOf (c : Bridge.CanvasSize) : Q * Q := (Bridge.width c, Bridge.height c).

Definition readyPayload (p : Bridge.ReadyPayload) : HealthScan.PagePayload :=
  {| HealthScan.pp_canvasSize := Some (sizeOf (Bridge.rp_canvasSize p));
     HealthScan.pp_sample :=
       {| HealthScan.ms_fps := None; HealthScan.ms_frameTimeMs := None;
          HealthScan.ms_frameSamples := None; HealthScan.ms_firstPaintMs := None;
          HealthScan.ms_devicePixelRatio := Some (Bridge.rp_devicePixelRatio p) |} |}.

Definition metricsPayload (m : Bridge.MetricsPayload) : HealthScan.PagePayload :=
  {| HealthScan.pp_canvasSize := option_map sizeOf (Bridge.canvasSize m);
     HealthScan.pp_sample :=
       {| HealthScan.ms_fps := Some (Bridge.fps m);
          HealthScan.ms_frameTimeMs := Some (Bridge.frameTimeMs m);
          HealthScan.ms_frameSamples := Some (Bridge.frameSamples m);
          HealthScan.ms_firstPaintMs := Bridge.firstPaintMs m;
          HealthScan.ms_devicePixelRatio := Some (Bridge.devicePixelRatio m) |} |}.

(** A payload without a canvas size or a pixel ratio. *)
Definition otherPayload : HealthScan.PagePayload :=
  {| HealthScan.pp_canvasSize := None; HealthScan.pp_sample := HealthScan.emptySample |}.

(** The message event, if any, that one event of a frame gives rise to
    in the page. *)
Definition messageOf (pageOrigin ORIGIN : string) (e : Bridge.FrameEvent)
  : option HealthScan.PageMessage :=
  match e with
  | Bridge.ReadyPosted p => delivered pageOrigin ORIGIN "arcade:ready" (Some (readyPayload p))
  | Bridge.Telemetry (Bridge.Post type (Bridge.Metrics m)) =>
      delivered pageOrigin ORIGIN type (Some (metricsPayload m))
  | Bridge.Telemetry (Bridge.Post type _) => delivered pageOrigin ORIGIN type (Some otherPayload)
  | _ => None
  end.

(** [window.__healthScan] of a page of the agent's origin after the
    frames: the listener run over everything the agent posted. *)
Definition healthAfterFrames (ORIGIN : string) (h : HealthScan.HealthWindow)
           (a : Bridge.AgentState) (frames : list (Q * Bridge.Document)) : HealthScan.HealthWindow :=
  fold_left (HealthScan.healthListener ORIGIN)
            (Bridge.pick (messageOf ORIGIN ORIGIN) (Bridge.animationFrames a frames)) h.

End Inject.

(** ** The manifest as the application reads it: [src/lib/manifest.ts] *)

Module Manifest.
Import HealthScan.

Definition isPlayable (game : ManifestGame) : bool :=
  negb (statusEqb (mg_status game) missing_assets) && negb (statusEqb (mg_status game) broken).

Definition playableGames (games : list ManifestGame) : list ManifestGame :=
  filter isPlayable games.

Definition getGameById (games : list ManifestGame) (id : string) : option ManifestGame :=
  find (fun game => String.eqb (mg_id game) id) games.

End Manifest.

(** ** The check of [scripts/check.js] on the report of the scan *)

Module Check.
Import HealthScan.

(** The flags that the check collects for one result of the report. *)
Definition flagsOf (r : HealthResult) : list string :=
  ((if negb (hr_ready r) then ["not-ready"] else []) ++
   (if hr_stalled r then ["stalled"] else []) ++
   (if hr_noMotion r then ["no-motion"] else []) ++
   (if hr_noResponse r then ["no-response"] else []))%list.

(** The results with the status 'working' that carry a flag. *)
Definition offenders (results : list HealthResult) : list (string * list string) :=
  filter (fun entry => (0 <? List.length (snd entry))%nat)
         (map (fun r => (hr_id r, flagsOf r))
              (filter (fun r => statusEqb (hr_status r) working) results)).

(** [playableManifestGames.filter(game => game.status === 'broken')] *)
Definition brokenVisible (games : list ManifestGame) : list ManifestGame :=
  filter (fun game => statusEqb (mg_status game) broken) (Manifest.playableGames games).

End Check.

(** ** The ids of discovered games: [scripts/discover-games.js] *)

Module Discover.

(** The class [[a-z0-9]]. *)
Definition isSlugChar (c : ascii) : bool := Js.isLower c || Js.isDigit c.

(** [s.replace(/\.html$/i, '')] *)
Fixpoint stripHtml (s : string) : string :=
  match s with
  | EmptyString => EmptyString
  | String c r =>
      if String.eqb (Js.toLowerCase s) ".html" then EmptyString else String c (stripHtml r)
  end.

(** [s.replace(/[^a-z0-9]+/g, '-')]; [inRun] tells whether the run that
    [s] continues has been replaced already. *)
Fixpoint dashFrom (inRun : bool) (s : string) : string :=
  match s with
  | EmptyString => EmptyString
  | String c r =>
      if isSlugChar c then String c (dashFrom false r)
      else if inRun then dashFrom true r else String "-"%char (dashFrom true r)
  end.

Fixpoint dropLeadingDashes (s : string) : string :=
  match s with
  | EmptyString => EmptyString
  | String c r => if Ascii.eqb c "-"%char then dropLeadingDashes r else s
  end.

Fixpoint dropTrailingDashes (s : string) : string :=
  match s with
  | EmptyString => EmptyString
  | String c r =>
      match dropTrailingDashes r with
      | EmptyString => if Ascii.eqb c "-"%char then EmptyString else String c EmptyString
      | r' => String c r'
      end
  end.

(** [s.replace(/^-+|-+$/g, '')] *)
Definition trimDashes (s : string) : string := dropTrailingDashes (dropLeadingDashes s).

Definition slugify (name : string) : string :=
  trimDashes (dashFrom false (stripHtml (Js.toLowerCase name))).

(** The shape of a slug: small letters, digits and single dashes, with a
    dash only between two other characters.  [mayDash] tells whether a
    dash may come next. *)
Fixpoint slugFrom (mayDash : bool) (s : string) : bool :=
  match s with
  | EmptyString => true
  | String c r =>
      if isSlugChar c then slugFrom true r
      else Ascii.eqb c "-"%char && mayDash && negb (String.eqb r "") && slugFrom false r
  end.

Definition isSlug (s : string) : bool := slugFrom false s.

(** As [slugFrom], without the demand that a dash is followed by
    something. *)
Fixpoint looseFrom (mayDash : bool) (s : string) : bool :=
  match s with
  | EmptyString => true
  | String c r =>
      if isSlugChar c then looseFrom true r
      else Ascii.eqb c "-"%char && mayDash && looseFrom false r
  end.

End Discover.

(** ** Concrete entries and observations *)

Module Samples.
Import HealthScan.

(** A one-pixel canvas of the given grey level. *)
Definition pixel (level : Z) : CanvasSurface :=
  {| cv_width := 1; cv_height := 1; cv_rectWidth := 1; cv_rectHeight := 1;
     cv_bufferContext := true;
     cv_imageData := fun _ _ => [level; level; level; 255] |}.

(** A canvas 100 wide and 1000 high, all black. *)
Definition tallCanvas : CanvasSurface :=
  {| cv_width := 100; cv_height := 1000; cv_rectWidth := 100; cv_rectHeight := 1000;
     cv_bufferContext := true;
     cv_imageData := fun w h => repeat 0 (Z.to_nat (4 * w * h)) |}.

Definition quietWindow : HealthWindow :=
  {| hw_ready := true; hw_metrics := []; hw_nativeSize := None;
     hw_devicePixelRatio := 1; hw_errors := 0 |}.

(** An entry that announces itself, animates at 60 frames a second,
    changes what it draws and reacts to every key. *)
Definition lively : ProbeObservation :=
  {| readySignal := true;
     fallbackCanvas := None;
     health := Some quietWindow;
     consoleErrorCount := 0;
     animationActivity := Some {| aa_tickCount := 120; aa_elapsedMs := 2000 |};
     surfaceA := Some (pixel 0);
     surfaceB := Some (pixel 255);
     keyPress := fun _ => Pressed (Some (pixel 0)) |}.

(** The same entry when the agent never announces it, though its canvas
    is there. *)
Definition silentButDrawn : ProbeObservation :=
  {| readySignal := false;
     fallbackCanvas := Some (1, 1);
     health := Some quietWindow;
     consoleErrorCount := 0;
     animationActivity := animationActivity lively;
     surfaceA := surfaceA lively;
     surfaceB := surfaceB lively;
     keyPress := keyPress lively |}.

(** An entry on which nothing can be observed. *)
Definition dead : ProbeObservation :=
  {| readySignal := false;
     fallbackCanvas := None;
     health := None;
     consoleErrorCount := 0;
     animationActivity := None;
     surfaceA := None;
     surfaceB := None;
     keyPress := fun _ => TryThrows |}.

(** An entry that is not ready, with snapshots that nobody takes. *)
Definition deadButDrawn : ProbeObservation :=
  {| readySignal := false;
     fallbackCanvas := None;
     health := None;
     consoleErrorCount := 0;
     animationActivity := animationActivity lively;
     surfaceA := surfaceA lively;
     surfaceB := surfaceA lively;
     keyPress := keyPress lively |}.

(** The lively entry when pressing a key throws. *)
Definition keyboardFails : ProbeObservation :=
  {| readySignal := true;
     fallbackCanvas := None;
     health := Some quietWindow;
     consoleErrorCount := 0;
     animationActivity := animationActivity lively;
     surfaceA := surfaceA lively;
     surfaceB := surfaceB lively;
     keyPress := fun _ => TryThrows |}.

Definition gameWith (id : string) (s : GameStatus) (movement : option (list ManifestControl))
  : ManifestGame :=
  {| mg_id := id; mg_title := id; mg_status := s;
     mg_controls := Some {| ct_movement := movement |} |}.

Definition control (input : string) : ManifestControl :=
  {| mc_device := "keyboard"; mc_input := input; mc_action := "Move" |}.

Definition pong : ManifestGame := gameWith "pixel-pong" working (Some [control "W/S or Up/Down"]).
Definition twin : ManifestGame := gameWith "temporal-twin" broken (Some [control "Left/Right"]).
Definition afterglow : ManifestGame := gameWith "afterglow" working (Some [control "Mouse"]).
Definition origami : ManifestGame := gameWith "origami-rift" unknown None.
Definition mushrooms : ManifestGame := gameWith "magic-mushrooms" missing_assets None.

Definition readinessTimeout : Q := 10000.

(** Two entries that share an id, and a run in which the first is lively
    and every later one is dead. *)
Definition dupFirst : ManifestGame := gameWith "dup" working (Some [control "Left/Right"]).
Definition dupSecond : ManifestGame := gameWith "dup" unknown None.

Definition livelyThenDead (i : nat) : ProbeObservation :=
  match i with
  | O => lively
  | S _ => dead
  end.

Definition signature (w h : Z) (l : list Q) : FrameSignature :=
  {| fs_width := w; fs_height := h; fs_luminances := l |}.

(** Paths resolved against a working directory /repo. *)
Definition resolveInRepo (path : string) : string := "/repo/" ++ path.

(** The agent just after injection at time 0. *)
Definition freshMetrics : Bridge.MetricsState :=
  {| Bridge.lastTimestamp := None; Bridge.frameCount := 0; Bridge.frameTimes := [];
     Bridge.lastPost := 0; Bridge.firstPaint := None; Bridge.start := 0 |}.

Definition bareDocument (t : Q) : Bridge.Document :=
  {| Bridge.now := t; Bridge.canvas := None; Bridge.pixelRatio := 1 |}.

(** Frames every 40 ms, from 40 to 400. *)
Definition steadyFrames : list (Q * Bridge.Document) :=
  map (fun k => let t := inject_Z (40 * Z.of_nat k) in (t, bareDocument t)) (seq 1 10).

Definition controlMessage (type : string) : Bridge.MessageEvent :=
  {| Bridge.data := Some {| Bridge.source := Bridge.BRIDGE_PARENT_SOURCE;
                            Bridge.type := Some type |};
     Bridge.origin := "http://127.0.0.1:5173" |}.

(** Two scores are stored; reading the third key throws. *)
Definition failingStorage : Bridge.Storage :=
  {| Bridge.st_length := Bridge.Returns 4%nat;
     Bridge.st_key := fun i =>
       match i with
       | 0%nat => Bridge.Returns (Some "pongHighScore")
       | 1%nat => Bridge.Returns None
       | 2%nat => Bridge.Returns (Some "runnerHighScore")
       | _ => Bridge.Throws
       end;
     Bridge.st_getItem := fun key =>
       if String.eqb key "pongHighScore" then Bridge.Returns (Some "12")
       else Bridge.Returns None |}.

End Samples.

(** ** Properties of the classification engine *)

Section Classification.
Import HealthScan.

Lemma shouldMarkBroken_iff (stalled noMotion noResponse : bool) (errors : Z) :
  shouldMarkBroken stalled noMotion noResponse errors = true <->
  stalled = true \/ noMotion = true \/ noResponse = true \/ 3 < errors.
Proof.
  unfold shouldMarkBroken.
  rewrite !orb_true_iff, Z.ltb_lt. tauto.
Qed.

(** C1.  For every probed entry, [shouldMarkBroken] is true exactly when
    one of stalled, noMotion, noResponse or "more than 3 errors" holds
    (for all values of the four inputs), the status of the result is
    'broken' when it is true and the entry's previous persisted status
    otherwise, and the result records that previous status. *)
Theorem probe_status_follows_shouldMarkBroken
  (timeout : Q) (game : ManifestGame) (o : ProbeObservation) :
  let r := probeGame timeout game o in
  (forall stalled noMotion noResponse errors,
      shouldMarkBroken stalled noMotion noResponse errors = true <->
      stalled = true \/ noMotion = true \/ noResponse = true \/ 3 < errors) /\
  hr_status r =
    (if shouldMarkBroken (hr_stalled r) (hr_noMotion r) (hr_noResponse r) (hr_errors r)
     then broken else mg_status game) /\
  hr_previousStatus r = mg_status game.
Proof.
  cbv zeta. split; [exact shouldMarkBroken_iff|]. split; reflexivity.
Qed.

Lemma probe_broken_has_cause (timeout : Q) (game : ManifestGame) (o : ProbeObservation) :
  let r := probeGame timeout game o in
  hr_status r = broken ->
  hr_previousStatus r <> broken ->
  hr_stalled r = true \/ hr_noMotion r = true \/ hr_noResponse r = true \/ 3 < hr_errors r.
Proof.
  cbv zeta. intros Hs Hp.
  apply shouldMarkBroken_iff.
  destruct (shouldMarkBroken _ _ _ _) eqn:E; [reflexivity|].
  exfalso. apply Hp.
  unfold probeGame in Hs |- *. cbn [hr_status hr_previousStatus] in *.
  unfold probeGame in E. cbn [hr_stalled hr_noMotion hr_noResponse hr_errors] in E.
  rewrite E in Hs. exact Hs.
Qed.

Lemma scanFrom_In (timeout : Q) (observe : nat -> ProbeObservation) (games : list ManifestGame) :
  forall i r, In r (scanFrom timeout observe i games) ->
    exists game, In game games /\
      ((mg_status game = missing_assets /\ r = excludedResult game) \/
       (mg_status game <> missing_assets /\ exists o, r = probeGame timeout game o)).
Proof.
  induction games as [|g rest IH]; intros i r Hin; [destruct Hin|].
  simpl in Hin. destruct Hin as [Hr | Hin].
  - exists g. split; [left; reflexivity|].
    destruct (mg_status g) eqn:E; simpl in Hr; subst r;
      try (right; split; [discriminate | eexists; reflexivity]).
    left. split; reflexivity.
  - destruct (IH _ _ Hin) as [game [Hg H]]. exists game. split; [right; exact Hg | exact H].
Qed.

(** C2, as the code has it.  In every result of a scan run, a status
    'broken' that is not the entry's previous persisted status comes with
    a flagged cause: stalled, noMotion, noResponse or more than 3 errors. *)
Theorem scan_new_broken_has_cause
  (timeout : Q) (observe : nat -> ProbeObservation) (games : list ManifestGame)
  (r : HealthResult) :
  In r (scanGames timeout observe games) ->
  hr_status r = broken ->
  hr_previousStatus r <> broken ->
  hr_stalled r = true \/ hr_noMotion r = true \/ hr_noResponse r = true \/ 3 < hr_errors r.
Proof.
  intros Hin Hs Hp.
  destruct (scanFrom_In _ _ _ _ _ Hin) as [game [_ [[Hm Hr] | [_ [o Hr]]]]]; subst r.
  - left. reflexivity.
  - exact (probe_broken_has_cause timeout game o Hs Hp).
Qed.

Lemma scan_new_broken_has_cause_witness :
  let r := probeGame Samples.readinessTimeout Samples.pong Samples.dead in
  In r (scanGames Samples.readinessTimeout (fun _ => Samples.dead) [Samples.pong]) /\
  (hr_stalled r = true \/ hr_noMotion r = true \/ hr_noResponse r = true \/ 3 < hr_errors r).
Proof.
  cbv zeta. split; [left; reflexivity|].
  apply (scan_new_broken_has_cause Samples.readinessTimeout (fun _ => Samples.dead)
           [Samples.pong]).
  - left. reflexivity.
  - reflexivity.
  - discriminate.
Defined.

(** Against C2 as the design document words it: an entry whose persisted status is already
    'broken' and which passes every check keeps the status 'broken' with
    no cause flagged. *)
Lemma scan_broken_without_cause :
  let r := probeGame Samples.readinessTimeout Samples.twin Samples.lively in
  In r (scanGames Samples.readinessTimeout (fun _ => Samples.lively) [Samples.twin]) /\
  hr_status r = broken /\
  ~ (hr_stalled r = true \/ hr_noMotion r = true \/ hr_noResponse r = true \/ 3 < hr_errors r).
Proof.
  cbv zeta. split; [left; reflexivity|]. split; [vm_compute; reflexivity|].
  vm_compute. intros [H | [H | [H | H]]]; discriminate.
Qed.

(** C3, as the code has it.  An entry is stalled exactly when the wait
    for the readiness signal ended without it and the direct probe of the
    document found no canvas either; it is never stalled when the wait
    ended with the signal.  [readySignal] is the outcome of that wait,
    however long it lasted. *)
Theorem stalled_iff_no_signal_and_no_canvas
  (timeout : Q) (game : ManifestGame) (o : ProbeObservation) :
  let r := probeGame timeout game o in
  (hr_stalled r = true <-> readySignal o = false /\ fallbackCanvas o = None) /\
  (readySignal o = true -> hr_stalled r = false) /\
  hr_stalled r = negb (hr_ready r).
Proof.
  cbv zeta. unfold probeGame, isReady; cbn [hr_stalled hr_ready].
  destruct (readySignal o), (fallbackCanvas o); simpl;
    repeat split; intros; try tauto; try discriminate; try reflexivity;
    try (destruct H; discriminate).
Qed.

Lemma stalled_iff_no_signal_and_no_canvas_witness :
  hr_stalled (probeGame Samples.readinessTimeout Samples.pong Samples.lively) = false /\
  hr_stalled (probeGame Samples.readinessTimeout Samples.pong Samples.dead) = true.
Proof.
  split.
  - exact (proj1 (proj2 (stalled_iff_no_signal_and_no_canvas Samples.readinessTimeout
                           Samples.pong Samples.lively)) eq_refl).
  - exact (proj2 (proj1 (stalled_iff_no_signal_and_no_canvas Samples.readinessTimeout
                           Samples.pong Samples.dead)) (conj eq_refl eq_refl)).
Defined.

(** Against C3 as the design document words it: the wait ends without
    the readiness signal, the canvas is found by the direct probe, and the
    entry is not stalled. *)
Lemma not_stalled_without_signal :
  readySignal Samples.silentButDrawn = false /\
  hr_stalled (probeGame Samples.readinessTimeout Samples.pong Samples.silentButDrawn) = false.
Proof. split; reflexivity. Qed.

End Classification.

(** ** Properties of frame signatures *)

Section Signatures.
Import HealthScan.
Local Open Scope Q_scope.

Lemma totalDifference_self (l : list Q) (indices : list nat) (acc : Q) :
  fold_left (fun total i => total + Qabs (nth i l 0 - nth i l 0)) indices acc == acc.
Proof.
  revert acc. induction indices as [|i rest IH]; intro acc; cbn [fold_left].
  - reflexivity.
  - rewrite IH. unfold Qminus. rewrite Qplus_opp_r. apply Qplus_0_r.
Qed.

(** Two signatures of the same dimensions and with the same luminance
    buffer, when that buffer is not empty, have the delta 0; two signatures
    that differ in width or in height have no delta at all. *)
Lemma delta_equal_or_incomparable (a b : FrameSignature) :
  (fs_width a = fs_width b -> fs_height a = fs_height b ->
   fs_luminances a = fs_luminances b -> fs_luminances a <> [] ->
   exists d, computeSignatureDelta (Some a) (Some b) = Some d /\ d == 0) /\
  (fs_width a <> fs_width b \/ fs_height a <> fs_height b ->
   computeSignatureDelta (Some a) (Some b) = None).
Proof.
  split.
  - intros Hw Hh Hl Hne. unfold computeSignatureDelta.
    rewrite <- Hw, <- Hh, <- Hl, !Z.eqb_refl, Nat.eqb_refl. simpl.
    destruct (fs_luminances a) as [|x l] eqn:E; [contradiction|].
    simpl Nat.eqb. cbv iota.
    eexists. split; [reflexivity|].
    unfold totalDifference. rewrite totalDifference_self.
    unfold Qdiv. apply Qmult_0_l.
  - intros H. unfold computeSignatureDelta.
    destruct H as [H | H]; apply Z.eqb_neq in H; rewrite H; simpl.
    + reflexivity.
    + destruct (fs_width a =? fs_width b)%Z; reflexivity.
Qed.

Lemma round_inject_Z (z : Z) : Js.round (inject_Z z) = z.
Proof.
  unfold Js.round, Qfloor, Qplus, inject_Z. simpl.
  symmetry. apply Z.div_unique with (r := 1%Z); lia.
Qed.

Lemma round_le (x y : Q) : x <= y -> (Js.round x <= Js.round y)%Z.
Proof.
  intro H. unfold Js.round. apply Qfloor_resp_le.
  apply Qplus_le_compat; [exact H | apply Qle_refl].
Qed.

Lemma round_comp (x y : Q) : x == y -> Js.round x = Js.round y.
Proof. intro H. unfold Js.round. rewrite H. reflexivity. Qed.

Lemma inject_Z_pos (z : Z) : (0 < z)%Z -> 0 < inject_Z z.
Proof. unfold Qlt, inject_Z. simpl. lia. Qed.

Lemma inject_Z_nonneg (z : Z) : (0 <= z)%Z -> 0 <= inject_Z z.
Proof. unfold Qle, inject_Z. simpl. lia. Qed.

(** The scaled width: [Math.max(1, Math.round(w * Math.min(1, cap / w)))]. *)
Lemma scaled_width_le (cap w : Z) :
  (1 <= cap)%Z -> w <> 0%Z ->
  (Z.max 1 (Js.round (inject_Z w * Qmin 1 (inject_Z cap / inject_Z w))) <= cap)%Z.
Proof.
  intros Hcap Hw.
  assert (Hq : ~ inject_Z w == 0).
  { intro E. apply Hw. unfold Qeq, inject_Z in E. simpl in E. lia. }
  destruct (Q.min_spec 1 (inject_Z cap / inject_Z w)) as [[Hlt E] | [Hle E]].
  - rewrite (round_comp _ (inject_Z w)) by (rewrite E; apply Qmult_1_r).
    rewrite round_inject_Z.
    destruct (Z_le_gt_dec w cap) as [Hs | Hb]; [lia|].
    exfalso. apply (Qlt_irrefl 1).
    eapply Qlt_trans; [exact Hlt|].
    apply Qlt_shift_div_r.
    + apply inject_Z_pos. lia.
    + rewrite Qmult_1_l. rewrite <- Zlt_Qlt. lia.
  - rewrite (round_comp _ (inject_Z cap)) by (rewrite E; apply Qmult_div_r; exact Hq).
    rewrite round_inject_Z. lia.
Qed.

Lemma scale_nonneg (cap w : Z) :
  (1 <= cap)%Z -> (0 < w)%Z -> 0 <= Qmin 1 (inject_Z cap / inject_Z w).
Proof.
  intros Hcap Hw. apply Q.min_glb.
  - discriminate.
  - apply Qle_shift_div_l.
    + apply inject_Z_pos. exact Hw.
    + rewrite Qmult_0_l. apply inject_Z_nonneg. lia.
Qed.

(** C5, as the code has it.  The width of every captured signature is at
    most 128, whatever the size of the canvas; its height is at most 128
    as well when the canvas is not higher than it is wide. *)
Theorem captured_width_at_most_cap (canvas : CanvasSurface) (s : FrameSignature) :
  captureCanvasSignature (Some canvas) downscaleWidth = Some s ->
  (1 <= fs_width s <= 128)%Z /\
  ((0 < intrinsicHeight canvas <= intrinsicWidth canvas)%Z -> (1 <= fs_height s <= 128)%Z).
Proof.
  unfold captureCanvasSignature, downscaleWidth.
  destruct (intrinsicWidth canvas =? 0)%Z eqn:Ew; [discriminate|].
  destruct (intrinsicHeight canvas =? 0)%Z eqn:Eh; [discriminate|].
  simpl. destruct (cv_bufferContext canvas); [|discriminate]. simpl.
  intro H. injection H as <-. cbn [fs_width fs_height].
  apply Z.eqb_neq in Ew.
  pose proof (scaled_width_le 128 (intrinsicWidth canvas) ltac:(lia) Ew) as Hwidth.
  split; [lia|].
  intros [Hpos Hle]. split; [lia|].
  eapply Z.le_trans; [|exact Hwidth].
  apply Z.max_le_compat_l. apply round_le.
  apply Qmult_le_compat_r.
  - rewrite <- Zle_Qle. exact Hle.
  - apply scale_nonneg; lia.
Qed.

Lemma captured_width_at_most_cap_witness :
  exists s, captureCanvasSignature (Some Samples.tallCanvas) downscaleWidth = Some s /\
            (1 <= fs_width s <= 128)%Z.
Proof.
  eexists. split; [reflexivity|].
  apply (captured_width_at_most_cap Samples.tallCanvas). reflexivity.
Defined.

(** Against C5 as the design document words it: a canvas 100 wide and 1000 high is captured
    unscaled, and the longer side of its signature is 1000. *)
Lemma captured_height_exceeds_cap :
  exists s, captureCanvasSignature (Some Samples.tallCanvas) downscaleWidth = Some s /\
            Z.max (fs_width s) (fs_height s) = 1000%Z /\
            ~ (Z.max (fs_width s) (fs_height s) <= 128)%Z.
Proof.
  eexists. split; [reflexivity|]. split; [reflexivity|]. cbn. lia.
Qed.

End Signatures.

(** ** Properties of the response test *)

Section ResponseTest.
Import HealthScan.

(** The key derived from some input descriptions of the manifest. *)
Example key_of_letters : selectFirstMovementKey Samples.pong = Some "w".
Proof. reflexivity. Qed.

Example key_of_directions : selectFirstMovementKey Samples.twin = Some "ArrowLeft".
Proof. reflexivity. Qed.

Example key_of_arrow_names :
  map (fun input => selectFirstMovementKey
                      (Samples.gameWith "g" working (Some [Samples.control input])))
      ["Arrow Up / Arrow Down"; "arrow   right"; "Arrow keys"; "Spacebar, Enter";
       "Click or Space"; "Color or x"; "WASD"; " "; "A|D"]
  = [Some "ArrowUp"; Some "ArrowRight"; None; Some "Space"; None; None; None; None; Some "a"].
Proof. reflexivity. Qed.

Lemma no_controls_no_key (game : ManifestGame) :
  movementControls game = [] -> selectFirstMovementKey game = None.
Proof.
  unfold movementControls, selectFirstMovementKey.
  destruct (mg_controls game) as [c|]; [|reflexivity].
  destruct (ct_movement c) as [l|]; [|reflexivity].
  intros ->. reflexivity.
Qed.

(** C6, as the code has it.  For a ready entry: when no key is derived,
    which includes the entry that declares no movement control, no
    response test is made and noResponse stays false; when a key is
    derived, the second snapshot was taken and the dispatch throws,
    noResponse is true. *)
Theorem response_test_policy (timeout : Q) (game : ManifestGame) (o : ProbeObservation) :
  let r := probeGame timeout game o in
  hr_ready r = true ->
  (movementControls game = [] -> hr_noResponse r = false) /\
  (selectFirstMovementKey game = None -> hr_noResponse r = false) /\
  (forall key,
      selectFirstMovementKey game = Some key ->
      captureCanvasSignature (surfaceB o) downscaleWidth <> None ->
      keyPress o key = TryThrows ->
      hr_noResponse r = true).
Proof.
  cbv zeta. unfold probeGame. cbn [hr_ready hr_noResponse]. intros ->.
  assert (Hnone : selectFirstMovementKey game = None -> noResponseOf game o = false).
  { intro E. unfold noResponseOf. rewrite E. reflexivity. }
  split; [|split].
  - intro H. apply Hnone, no_controls_no_key, H.
  - exact Hnone.
  - intros key Hk Hb Hp. unfold noResponseOf. rewrite Hk.
    destruct (captureCanvasSignature (surfaceB o) downscaleWidth); [|contradiction].
    rewrite Hp. reflexivity.
Qed.

Lemma response_test_policy_witness :
  hr_noResponse (probeGame Samples.readinessTimeout Samples.origami Samples.lively) = false /\
  hr_noResponse (probeGame Samples.readinessTimeout Samples.pong Samples.keyboardFails) = true.
Proof.
  split.
  - exact (proj1 (response_test_policy Samples.readinessTimeout Samples.origami
                    Samples.lively eq_refl) eq_refl).
  - apply (proj2 (proj2 (response_test_policy Samples.readinessTimeout Samples.pong
                           Samples.keyboardFails eq_refl)) "w").
    + reflexivity.
    + discriminate.
    + reflexivity.
Defined.

(** Against C6 as the design document words it: the entry declares a movement control, "Mouse",
    from which no key is derived; it is ready, and its noResponse flag
    is false. *)
Lemma underivable_key_not_flagged :
  let r := probeGame Samples.readinessTimeout Samples.afterglow Samples.lively in
  movementControls Samples.afterglow <> [] /\
  selectFirstMovementKey Samples.afterglow = None /\
  hr_ready r = true /\
  hr_noResponse r = false.
Proof. cbv zeta. split; [discriminate|]. repeat split. Qed.

End ResponseTest.

(** ** Properties of reconciliation *)

Section Reconciliation.
Import HealthScan.

Lemma statusEqb_eq (a b : GameStatus) : statusEqb a b = true <-> a = b.
Proof. destruct a, b; simpl; split; intro H; try reflexivity; discriminate. Qed.

Lemma setStatus_same (g : ManifestGame) : setStatus g (mg_status g) = g.
Proof. destruct g; reflexivity. Qed.

Lemma markBroken_pointwise (id : string) (games : list ManifestGame) :
  Forall2 (fun g g' => g' = g \/ (g' = setStatus g broken /\ mg_id g = id))
          games (fst (markBroken id games)).
Proof.
  induction games as [|g rest IH]; simpl; [constructor|].
  destruct (String.eqb (mg_id g) id) eqn:E; simpl.
  - constructor.
    + right. split; [reflexivity|]. apply String.eqb_eq. exact E.
    + clear IH. induction rest; constructor; [left; reflexivity | assumption].
  - destruct (markBroken id rest) as [rest' found]. simpl in *.
    constructor; [left; reflexivity | exact IH].
Qed.

Lemma touched_step (all : list HealthResult) (r : HealthResult)
      (games0 games games' : list ManifestGame) :
  In r all -> hr_status r = broken -> hr_previousStatus r <> broken ->
  Forall2 (touched all) games0 games ->
  Forall2 (fun g g' => g' = g \/ (g' = setStatus g broken /\ mg_id g = hr_id r)) games games' ->
  Forall2 (touched all) games0 games'.
Proof.
  intros Hin Hs Hp H1. revert games'.
  induction H1 as [|g0 g l0 l Hg _ IH]; intros games' H2; inversion H2; subst; constructor.
  - match goal with H : _ \/ _ |- _ => destruct H as [-> | [-> Hid]] end; [exact Hg|].
    destruct Hg as [-> | [-> Hw]].
    + right. split; [reflexivity|]. exists r. repeat split; auto.
    + right. split; [reflexivity | exact Hw].
  - apply IH. assumption.
Qed.

Lemma reconcile_fold_touched (all results : list HealthResult) :
  forall games0 games changed,
    (forall r, In r results -> In r all) ->
    Forall2 (touched all) games0 games ->
    Forall2 (touched all) games0 (fst (fold_left reconcileStep results (games, changed))).
Proof.
  induction results as [|r rest IH]; intros games0 games changed Hsub H; simpl; [exact H|].
  destruct (statusEqb (hr_status r) broken) eqn:Es; simpl.
  - destruct (statusEqb (hr_previousStatus r) broken) eqn:Ep; simpl.
    + apply IH; [intros; apply Hsub; right; assumption | exact H].
    + pose proof (markBroken_pointwise (hr_id r) games) as Hm.
      destruct (markBroken (hr_id r) games) as [games' found]. simpl in Hm.
      apply IH; [intros; apply Hsub; right; assumption|].
      apply (touched_step all r games0 games games'); auto.
      * apply Hsub. left. reflexivity.
      * apply statusEqb_eq. exact Es.
      * intro E. apply statusEqb_eq in E. congruence.
  - apply IH; [intros; apply Hsub; right; assumption | exact H].
Qed.

Lemma touched_refl (all : list HealthResult) (games : list ManifestGame) :
  Forall2 (touched all) games games.
Proof. induction games; constructor; [left; reflexivity | assumption]. Qed.

Lemma Forall2_nth_error_rel {A B : Type} (R : A -> B -> Prop) (l : list A) (l' : list B) :
  Forall2 R l l' ->
  forall i x y, nth_error l i = Some x -> nth_error l' i = Some y -> R x y.
Proof.
  induction 1 as [|a b l l' Hab _ IH]; intros i x y Hx Hy.
  - destruct i; discriminate.
  - destruct i as [|i]; simpl in *.
    + congruence.
    + eapply IH; eassumption.
Qed.

Lemma reconcile_manifest (results : list HealthResult) (games : list ManifestGame) :
  rc_manifest (reconcile true results games) =
  fst (fold_left reconcileStep results (games, false)).
Proof.
  unfold reconcile. destruct (fold_left reconcileStep results (games, false)). reflexivity.
Qed.

Lemma reconcile_touched (results : list HealthResult) (games : list ManifestGame) :
  Forall2 (touched results) games (rc_manifest (reconcile true results games)).
Proof.
  rewrite reconcile_manifest.
  apply reconcile_fold_touched; [auto | apply touched_refl].
Qed.

Lemma scanFrom_ids (timeout : Q) (observe : nat -> ProbeObservation)
      (games : list ManifestGame) :
  forall i, Forall2 (fun g r => hr_id r = mg_id g /\ hr_previousStatus r = mg_status g)
                    games (scanFrom timeout observe i games).
Proof.
  induction games as [|g rest IH]; intro i; simpl; constructor.
  - destruct (statusEqb (mg_status g) missing_assets); split; reflexivity.
  - apply IH.
Qed.

Lemma reconcile_written (results : list HealthResult) (games : list ManifestGame) :
  let out := reconcile true results games in
  rc_written out = None \/ rc_written out = Some (rc_manifest out).
Proof.
  cbv zeta. unfold reconcile.
  destruct (fold_left reconcileStep results (games, false)) as [games' changed].
  destruct changed; simpl; [right | left]; reflexivity.
Qed.

Lemma nth_error_unique_id (games : list ManifestGame) (i j : nat) (g h : ManifestGame) :
  NoDup (map mg_id games) ->
  nth_error games i = Some g -> nth_error games j = Some h -> mg_id g = mg_id h -> i = j.
Proof.
  intros Hnd Hi Hj Hid.
  rewrite NoDup_nth_error in Hnd. apply Hnd.
  - rewrite length_map. apply nth_error_Some. congruence.
  - rewrite !nth_error_map, Hi, Hj. simpl. congruence.
Qed.

(** C7, as the code has it.  Without --write nothing is written and the
    manifest stays as it is.  With --write, every entry of the manifest
    keeps its place, and an entry whose record differs afterwards differs
    only in its status, now 'broken', which was not 'broken' before, on
    account of a result of this run for its id that is 'broken' with a
    previous status other than 'broken'.  When the ids of the manifest are
    distinct that result is the entry's own, so that only the entries
    whose own result is newly 'broken' are touched.  What is written, if
    anything, is the reconciled manifest. *)
Theorem reconciliation_touches_only_new_broken
  (timeout : Q) (observe : nat -> ProbeObservation) (games : list ManifestGame) :
  let results := scanGames timeout observe games in
  let out := reconcile true results games in
  reconcile false results games = {| rc_manifest := games; rc_written := None |} /\
  List.length (rc_manifest out) = List.length games /\
  (forall i g g',
      nth_error games i = Some g -> nth_error (rc_manifest out) i = Some g' ->
      g' = g \/
      (g' = setStatus g broken /\ mg_status g <> broken /\
       exists r, In r results /\ hr_id r = mg_id g /\
                 hr_status r = broken /\ hr_previousStatus r <> broken)) /\
  (NoDup (map mg_id games) ->
   forall i g r g',
     nth_error games i = Some g -> nth_error results i = Some r ->
     nth_error (rc_manifest out) i = Some g' -> g' <> g ->
     hr_status r = broken /\ hr_previousStatus r <> broken /\ mg_status g <> broken) /\
  (rc_written out = None \/ rc_written out = Some (rc_manifest out)).
Proof.
  cbv zeta.
  pose proof (reconcile_touched (scanGames timeout observe games) games) as Ht.
  assert (Hpoint : forall i g g',
             nth_error games i = Some g ->
             nth_error (rc_manifest (reconcile true (scanGames timeout observe games) games)) i
             = Some g' ->
             g' = g \/
             (g' = setStatus g broken /\ mg_status g <> broken /\
              exists r, In r (scanGames timeout observe games) /\ hr_id r = mg_id g /\
                        hr_status r = broken /\ hr_previousStatus r <> broken)).
  { intros i g g' Hg Hg'.
    destruct (Forall2_nth_error_rel _ _ _ Ht i g g' Hg Hg') as [E | [E Hw]]; [left; exact E|].
    destruct (statusEqb (mg_status g) broken) eqn:Es.
    - left. apply statusEqb_eq in Es. rewrite E, <- Es. apply setStatus_same.
    - right. split; [exact E|]. split; [|exact Hw].
      intro Hb. apply statusEqb_eq in Hb. congruence. }
  split; [reflexivity|]. split; [symmetry; exact (Forall2_length Ht)|].
  split; [exact Hpoint|]. split; [|apply reconcile_written].
  intros Hnd i g r g' Hg Hr Hg' Hne.
  destruct (Hpoint i g g' Hg Hg') as [E | [_ [Hst [r' [Hin [Hid [Hs Hp]]]]]]]; [contradiction|].
  apply In_nth_error in Hin. destruct Hin as [j Hj].
  pose proof (scanFrom_ids timeout observe games 0) as Hids.
  fold (scanGames timeout observe games) in Hids.
  assert (Hjg : exists h, nth_error games j = Some h).
  { destruct (nth_error games j) as [h|] eqn:E; [eexists; reflexivity|].
    exfalso. apply nth_error_None in E.
    assert (j < List.length (scanGames timeout observe games))%nat
      by (apply nth_error_Some; congruence).
    rewrite <- (Forall2_length Hids) in H. lia. }
  destruct Hjg as [h Hh].
  destruct (Forall2_nth_error_rel _ _ _ Hids j h r' Hh Hj) as [Hidh _].
  assert (i = j) by (apply (nth_error_unique_id games i j g h Hnd Hg Hh); congruence).
  subst j. assert (r' = r) by congruence. subst r'.
  repeat split; assumption.
Qed.

Lemma reconciliation_touches_only_new_broken_witness :
  let games := [Samples.pong; Samples.twin; Samples.mushrooms] in
  let results := scanGames Samples.readinessTimeout (fun _ => Samples.dead) games in
  let r := probeGame Samples.readinessTimeout Samples.pong Samples.dead in
  NoDup (map mg_id games) /\
  (hr_status r = broken /\ hr_previousStatus r <> broken /\ mg_status Samples.pong <> broken) /\
  (Samples.twin = Samples.twin \/
   (Samples.twin = setStatus Samples.twin broken /\
    mg_status Samples.twin <> broken /\
    exists r', In r' results /\ hr_id r' = mg_id Samples.twin /\
               hr_status r' = broken /\ hr_previousStatus r' <> broken)).
Proof.
  cbv zeta.
  assert (Hnd : NoDup (map mg_id [Samples.pong; Samples.twin; Samples.mushrooms])).
  { repeat constructor; simpl; intuition discriminate. }
  pose proof (reconciliation_touches_only_new_broken Samples.readinessTimeout
                (fun _ => Samples.dead) [Samples.pong; Samples.twin; Samples.mushrooms]) as H.
  cbv zeta in H. destruct H as [_ [_ [Hid [Hown _]]]].
  split; [exact Hnd|]. split.
  - apply (Hown Hnd 0%nat Samples.pong _ (setStatus Samples.pong broken) eq_refl eq_refl eq_refl).
    discriminate.
  - exact (Hid 1%nat Samples.twin Samples.twin eq_refl eq_refl).
Defined.

(** Against C7 as the design document words it: two entries share an id;
    the first passes every check and the second fails them.  The first
    entry, whose own result is 'working', is the one that is marked
    'broken'; the second, whose result is 'broken' with the previous
    status 'unknown', stays as it is. *)
Lemma repeated_id_marks_another_entry :
  let games := [Samples.dupFirst; Samples.dupSecond] in
  let results := scanGames Samples.readinessTimeout Samples.livelyThenDead games in
  let out := reconcile true results games in
  map hr_status results = [working; broken] /\
  map hr_previousStatus results = [working; unknown] /\
  rc_manifest out = [setStatus Samples.dupFirst broken; Samples.dupSecond] /\
  setStatus Samples.dupFirst broken <> Samples.dupFirst.
Proof. cbv zeta. repeat split. discriminate. Qed.

End Reconciliation.

(** ** Properties of the agent *)

Section Throttling.
Import Bridge.
Local Open Scope Q_scope.

Lemma lastPost_noteFrame (doc : Document) (t : Q) (s : MetricsState) :
  lastPost (noteFrame doc t s) = lastPost s.
Proof. unfold noteFrame. destruct (lastTimestamp s); reflexivity. Qed.

(** One frame posts nothing and leaves [lastPost] alone, or posts one
    metrics message, at least 100 after [lastPost], and moves [lastPost]
    to the frame's timestamp. *)
Lemma recordFrame_cases (doc : Document) (t : Q) (s : MetricsState) :
  (snd (recordFrame doc t s) = [] /\ lastPost (fst (recordFrame doc t s)) = lastPost s) \/
  (exists m, snd (recordFrame doc t s) = [Post "arcade:metrics" (Metrics m)] /\
             lastPost (fst (recordFrame doc t s)) = t /\
             100 <= t - lastPost s).
Proof.
  unfold recordFrame. rewrite lastPost_noteFrame.
  destruct (Qle_bool 100 (t - lastPost s)) eqn:E; simpl.
  - right. eexists. split; [reflexivity|]. split; [reflexivity|].
    apply Qle_bool_iff. exact E.
  - left. split; [reflexivity | apply lastPost_noteFrame].
Qed.

Lemma metricsTimes_spaced (frames : list (Q * Document)) :
  forall s, spaced (lastPost s) (metricsTimes s frames).
Proof.
  induction frames as [|[t doc] rest IH]; intro s; [exact I|].
  unfold metricsTimes. cbn [recordFrames].
  destruct (recordFrame_cases doc t s) as [[Hout Hlast] | [m [Hout [Hlast Hgap]]]];
    destruct (recordFrame doc t s) as [s' out]; simpl in Hout, Hlast; subst out.
  - simpl. rewrite <- Hlast. apply IH.
  - simpl. split; [exact Hgap|]. rewrite <- Hlast at 1. apply IH.
Qed.

Lemma spaced_consecutive (pre : list Q) :
  forall last t1 t2 post, spaced last (pre ++ t1 :: t2 :: post) -> 100 <= t2 - t1.
Proof.
  induction pre as [|p pre IH]; intros last t1 t2 post H; simpl in H.
  - tauto.
  - destruct H as [_ H]. exact (IH _ _ _ _ H).
Qed.

(** C8.  Whatever frames the recorder is fed and whatever state it is
    in, two metrics messages that follow one another were posted at
    timestamps at least 100 ms apart. *)
Theorem metrics_at_least_100ms_apart
  (s : MetricsState) (frames : list (Q * Document)) (pre post : list Q) (t1 t2 : Q) :
  metricsTimes s frames = (pre ++ t1 :: t2 :: post)%list ->
  100 <= t2 - t1.
Proof.
  intro H. apply (spaced_consecutive pre (lastPost s) t1 t2 post).
  rewrite <- H. apply metricsTimes_spaced.
Qed.

Lemma metrics_at_least_100ms_apart_witness :
  metricsTimes Samples.freshMetrics Samples.steadyFrames = [120; 240; 360]%list /\
  100 <= 240 - 120.
Proof.
  split; [reflexivity|].
  apply (metrics_at_least_100ms_apart Samples.freshMetrics Samples.steadyFrames
           []%list [360]%list 120 240).
  reflexivity.
Defined.

End Throttling.

Section ControlMessages.
Import Bridge.

Lemma handleMessage_accepted (ORIGIN : string) (st : Storage) (event : MessageEvent)
      (type : string) :
  accepted ORIGIN event type ->
  handleMessage ORIGIN st event =
    if String.eqb type "" then []
    else if isPauseControl type then
      [DispatchWindow type; DispatchDocument type; Post "arcade:pause-state" (PauseState type)]
    else if String.eqb type "arcade:toggle-help" then
      [DispatchWindow "arcade:toggle-help"; DispatchDocument "arcade:toggle-help"]
    else if String.eqb type "arcade:request-highscores" then requestHighscores st
    else [].
Proof.
  intros [d [Hd [Hs [Ho Ht]]]]. unfold handleMessage.
  rewrite Hd, Hs, Ho, Ht, !String.eqb_refl. reflexivity.
Qed.

(** C9.  An accepted focus, blur, pause or resume message is dispatched
    again, under its own name, on the window and then on the document,
    and a pause-state message naming it is posted after that, whatever
    else holds; an accepted toggle-help message is dispatched on both and
    nothing is posted. *)
Theorem control_message_effects
  (ORIGIN : string) (st : Storage) (event : MessageEvent) (type : string) :
  accepted ORIGIN event type ->
  (In type ["arcade:focus"; "arcade:blur"; "arcade:pause"; "arcade:resume"] ->
   handleMessage ORIGIN st event =
     [DispatchWindow type; DispatchDocument type; Post "arcade:pause-state" (PauseState type)]) /\
  (type = "arcade:toggle-help" ->
   handleMessage ORIGIN st event = [DispatchWindow type; DispatchDocument type]).
Proof.
  intro H. rewrite (handleMessage_accepted ORIGIN st event type H). split.
  - intros [<- | [<- | [<- | [<- | []]]]]; reflexivity.
  - intros ->. reflexivity.
Qed.

Lemma sample_accepted (type : string) :
  accepted "http://127.0.0.1:5173" (Samples.controlMessage type) type.
Proof. eexists. repeat split. Qed.

Lemma control_message_effects_witness :
  handleMessage "http://127.0.0.1:5173" Samples.failingStorage
                (Samples.controlMessage "arcade:pause") =
    [DispatchWindow "arcade:pause"; DispatchDocument "arcade:pause";
     Post "arcade:pause-state" (PauseState "arcade:pause")] /\
  handleMessage "http://127.0.0.1:5173" Samples.failingStorage
                (Samples.controlMessage "arcade:toggle-help") =
    [DispatchWindow "arcade:toggle-help"; DispatchDocument "arcade:toggle-help"].
Proof.
  split.
  - apply (proj1 (control_message_effects "http://127.0.0.1:5173" Samples.failingStorage
                    (Samples.controlMessage "arcade:pause") "arcade:pause"
                    (sample_accepted "arcade:pause"))).
    simpl. tauto.
  - exact (proj2 (control_message_effects "http://127.0.0.1:5173" Samples.failingStorage
                    (Samples.controlMessage "arcade:toggle-help") "arcade:toggle-help"
                    (sample_accepted "arcade:toggle-help")) eq_refl).
Defined.

Lemma enumerateFrom_spec (st : Storage) (steps : nat) :
  forall i entries,
    (enumerateFrom st i steps entries = ((entries ++ entriesFrom st i steps)%list, false) /\
     forall j, (i <= j < i + steps)%nat -> readEntry st j <> Throws) \/
    (exists m, (m < steps)%nat /\
               readEntry st (i + m) = Throws /\
               (forall j, (i <= j < i + m)%nat -> readEntry st j <> Throws) /\
               enumerateFrom st i steps entries = ((entries ++ entriesFrom st i m)%list, true)).
Proof.
  unfold entriesFrom.
  induction steps as [|k IH]; intros i entries.
  - left. split; [simpl; rewrite app_nil_r; reflexivity | intros j Hj; lia].
  - cbn [enumerateFrom].
    destruct (readEntry st i) as [[entry|]|] eqn:E.
    + destruct (IH (S i) (entries ++ [entry])%list) as [[Hrun Hok] | [m [Hm [Hthrow [Hok Hrun]]]]].
      * left. split.
        -- rewrite Hrun. cbn [seq flat_map]. rewrite E, <- app_assoc. reflexivity.
        -- intros j Hj. destruct (Nat.eq_dec j i) as [-> | Hne]; [congruence|].
           apply Hok. lia.
      * right. exists (S m). split; [lia|]. split; [rewrite Nat.add_succ_r; exact Hthrow|].
        split.
        -- intros j Hj. destruct (Nat.eq_dec j i) as [-> | Hne]; [congruence|].
           apply Hok. lia.
        -- rewrite Hrun. cbn [seq flat_map]. rewrite E, <- app_assoc. reflexivity.
    + destruct (IH (S i) entries) as [[Hrun Hok] | [m [Hm [Hthrow [Hok Hrun]]]]].
      * left. split.
        -- rewrite Hrun. cbn [seq flat_map]. rewrite E. reflexivity.
        -- intros j Hj. destruct (Nat.eq_dec j i) as [-> | Hne]; [congruence|].
           apply Hok. lia.
      * right. exists (S m). split; [lia|]. split; [rewrite Nat.add_succ_r; exact Hthrow|].
        split.
        -- intros j Hj. destruct (Nat.eq_dec j i) as [-> | Hne]; [congruence|].
           apply Hok. lia.
        -- rewrite Hrun. cbn [seq flat_map]. rewrite E. reflexivity.
    + right. exists 0%nat. split; [lia|]. split; [rewrite Nat.add_0_r; exact E|].
      split; [intros j Hj; lia|]. simpl. rewrite app_nil_r. reflexivity.
Qed.

(** C10.  An accepted request-highscores message is answered by exactly
    one highscores message.  When the storage is read to its end, the
    reply is the only message and carries every entry that has a key;
    when reading the length or an index throws, an error message is
    posted first and the reply carries the entries of the indices
    before the failing one. *)
Theorem request_highscores_always_answered
  (ORIGIN : string) (st : Storage) (event : MessageEvent) :
  accepted ORIGIN event "arcade:request-highscores" ->
  let out := handleMessage ORIGIN st event in
  List.length (filter isHighscoresPost out) = 1%nat /\
  ((exists n, st_length st = Returns n /\
              (forall j, (j < n)%nat -> readEntry st j <> Throws) /\
              out = [Post "arcade:highscores" (Highscores (entriesBelow st n))]) \/
   (exists k, (st_length st = Throws /\ k = 0%nat \/
               exists n, st_length st = Returns n /\ (k < n)%nat /\ readEntry st k = Throws) /\
              (forall j, (j < k)%nat -> readEntry st j <> Throws) /\
              out = [Post "arcade:error" (EnumerationError "Failed to enumerate localStorage");
                     Post "arcade:highscores" (Highscores (entriesBelow st k))])).
Proof.
  intro H. cbv zeta. rewrite (handleMessage_accepted ORIGIN st event _ H).
  cbn [String.eqb Ascii.eqb Bool.eqb isPauseControl orb].
  unfold requestHighscores, enumerate, entriesBelow.
  destruct (st_length st) as [n|] eqn:El.
  - destruct (enumerateFrom_spec st n 0 []) as [[Hrun Hok] | [m [Hm [Hthrow [Hok Hrun]]]]];
      rewrite Hrun; simpl.
    + split; [reflexivity|]. left. exists n. split; [reflexivity|].
      split; [intros j Hj; apply Hok; lia | reflexivity].
    + split; [reflexivity|]. right. exists m. split.
      * right. exists n. split; [reflexivity|]. split; [exact Hm | exact Hthrow].
      * split; [intros j Hj; apply Hok; lia | reflexivity].
  - simpl. split; [reflexivity|]. right. exists 0%nat.
    split; [left; split; reflexivity|]. split; [intros j Hj; lia | reflexivity].
Qed.

Lemma request_highscores_always_answered_witness :
  let out := handleMessage "http://127.0.0.1:5173" Samples.failingStorage
               (Samples.controlMessage "arcade:request-highscores") in
  out = [Post "arcade:error" (EnumerationError "Failed to enumerate localStorage");
         Post "arcade:highscores"
              (Highscores [("pongHighScore", Some "12"); ("runnerHighScore", None)])] /\
  List.length (filter isHighscoresPost out) = 1%nat.
Proof.
  cbv zeta. split; [reflexivity|].
  apply (request_highscores_always_answered "http://127.0.0.1:5173" Samples.failingStorage
           (Samples.controlMessage "arcade:request-highscores")
           (sample_accepted "arcade:request-highscores")).
Defined.

End ControlMessages.

(** ** More on frame signatures *)

Section SignatureShape.
Import HealthScan.
Local Open Scope Q_scope.

Lemma fold_left_pointwise {A B : Type} (f g : A -> B -> A) (l : list B) :
  (forall a b, f a b = g a b) -> forall a, fold_left f l a = fold_left g l a.
Proof.
  intro H. induction l as [|b l IH]; intro a; simpl; [reflexivity|].
  rewrite H. apply IH.
Qed.

Lemma totalDifference_sym (la lb : list Q) (n : nat) :
  totalDifference la lb n = totalDifference lb la n.
Proof.
  unfold totalDifference. apply fold_left_pointwise.
  intros total i. rewrite Qabs_Qminus. reflexivity.
Qed.

(** The delta does not depend on the order of the two signatures. *)
Theorem computeSignatureDelta_symmetric (a b : option FrameSignature) :
  computeSignatureDelta a b = computeSignatureDelta b a.
Proof.
  destruct a as [a|], b as [b|]; try reflexivity.
  unfold computeSignatureDelta.
  rewrite (Z.eqb_sym (fs_width b)), (Z.eqb_sym (fs_height b)).
  destruct (negb (fs_width a =? fs_width b)%Z || negb (fs_height a =? fs_height b)%Z);
    [reflexivity|].
  destruct (Nat.eqb_spec (List.length (fs_luminances a)) (List.length (fs_luminances b)))
    as [E | Hne].
  - rewrite <- E, Nat.eqb_refl, totalDifference_sym. reflexivity.
  - rewrite (proj2 (Nat.eqb_neq _ _) (fun H => Hne (eq_sym H))).
    rewrite !orb_true_r. reflexivity.
Qed.

Lemma nth_inByteRange (l : list Q) (i : nat) :
  Forall inByteRange l -> inByteRange (nth i l 0).
Proof.
  intro H. revert i. induction H as [|x l Hx _ IH]; intro i.
  - destruct i; simpl; split; discriminate.
  - destruct i; simpl; [exact Hx | apply IH].
Qed.

Lemma Qabs_difference_le (x y : Q) :
  inByteRange x -> inByteRange y -> Qabs (x - y) <= 255.
Proof.
  intros [Hx0 Hx1] [Hy0 Hy1]. apply Qabs_Qle_condition. split; lra.
Qed.

Lemma inject_Z_succ (k : nat) : inject_Z (Z.of_nat (S k)) == inject_Z (Z.of_nat k) + 1.
Proof. rewrite Nat2Z.inj_succ, <- Z.add_1_r, inject_Z_plus. reflexivity. Qed.

Lemma totalDifference_nonneg (la lb : list Q) (indices : list nat) (acc : Q) :
  acc <= fold_left (fun total i => total + Qabs (nth i la 0 - nth i lb 0)) indices acc.
Proof.
  revert acc. induction indices as [|i rest IH]; intro acc; cbn [fold_left].
  - apply Qle_refl.
  - eapply Qle_trans; [|apply IH].
    pose proof (Qabs_nonneg (nth i la 0 - nth i lb 0)). lra.
Qed.

Lemma totalDifference_le (la lb : list Q) (indices : list nat) (acc : Q) :
  Forall inByteRange la -> Forall inByteRange lb ->
  fold_left (fun total i => total + Qabs (nth i la 0 - nth i lb 0)) indices acc
  <= acc + 255 * inject_Z (Z.of_nat (List.length indices)).
Proof.
  intros Ha Hb. revert acc. induction indices as [|i rest IH]; intro acc; cbn [fold_left].
  - cbn [List.length]. change (inject_Z (Z.of_nat 0)) with 0. lra.
  - eapply Qle_trans; [apply IH|].
    cbn [List.length]. rewrite inject_Z_succ.
    pose proof (Qabs_difference_le _ _ (nth_inByteRange la i Ha) (nth_inByteRange lb i Hb)).
    lra.
Qed.

Lemma delta_cases (a b : FrameSignature) (d : Q) :
  computeSignatureDelta (Some a) (Some b) = Some d ->
  let n := List.length (fs_luminances a) in
  (0 < n)%nat /\
  d = totalDifference (fs_luminances a) (fs_luminances b) n / inject_Z (Z.of_nat n * 255).
Proof.
  unfold computeSignatureDelta.
  destruct (negb (fs_width a =? fs_width b)%Z || negb (fs_height a =? fs_height b)%Z);
    [discriminate|].
  destruct (List.length (fs_luminances a)) as [|k] eqn:E; [discriminate|].
  destruct (negb (S k =? List.length (fs_luminances b))%nat); [discriminate|].
  simpl orb. cbv iota. intro H. injection H as <-. split; [lia | reflexivity].
Qed.

(** A delta is never negative, and it is at most 1 when the luminances of
    both signatures lie between 0 and 255. *)
Theorem delta_between_0_and_1 (a b : FrameSignature) (d : Q) :
  computeSignatureDelta (Some a) (Some b) = Some d ->
  0 <= d /\
  (Forall inByteRange (fs_luminances a) -> Forall inByteRange (fs_luminances b) -> d <= 1).
Proof.
  intro H. destruct (delta_cases a b d H) as [Hn ->].
  set (n := List.length (fs_luminances a)) in *.
  assert (Hpos : 0 < inject_Z (Z.of_nat n * 255)).
  { unfold Qlt, inject_Z. simpl. lia. }
  split.
  - apply Qle_shift_div_l; [exact Hpos|]. rewrite Qmult_0_l.
    apply totalDifference_nonneg.
  - intros Ha Hb. apply Qle_shift_div_r; [exact Hpos|]. rewrite Qmult_1_l.
    eapply Qle_trans; [apply (totalDifference_le _ _ _ _ Ha Hb)|].
    rewrite length_seq, inject_Z_mult. change (inject_Z 255) with 255. lra.
Qed.

Lemma delta_between_0_and_1_witness :
  exists d, computeSignatureDelta (Some (Samples.signature 2 1 [10; 200]))
                                  (Some (Samples.signature 2 1 [60; 0])) = Some d /\
            0 <= d /\ d <= 1.
Proof.
  eexists. split; [reflexivity|].
  pose proof (delta_between_0_and_1 (Samples.signature 2 1 [10; 200])
                (Samples.signature 2 1 [60; 0]) _ eq_refl) as [H0 H1].
  split; [exact H0|]. apply H1; repeat constructor; discriminate.
Defined.

End SignatureShape.

Section CaptureShape.
Import HealthScan.
Local Open Scope Q_scope.

Lemma byteAt_isByte (data : list Z) (i : nat) : Forall isByte data -> isByte (byteAt data i).
Proof.
  intro H. unfold byteAt. revert i. induction H as [|x l Hx _ IH]; intro i.
  - destruct i; simpl; unfold isByte; lia.
  - destruct i; simpl; [exact Hx | apply IH].
Qed.

Lemma luminance_inByteRange (r g b : Z) :
  isByte r -> isByte g -> isByte b -> inByteRange (luminance r g b).
Proof.
  unfold isByte, inByteRange, luminance. intros Hr Hg Hb.
  assert (0 <= inject_Z r <= 255 /\ 0 <= inject_Z g <= 255 /\ 0 <= inject_Z b <= 255)
    as [Hr' [Hg' Hb']].
  { change 0 with (inject_Z 0). change 255 with (inject_Z 255).
    rewrite <- !Zle_Qle. lia. }
  split; lra.
Qed.

Lemma capture_cases (canvas : CanvasSurface) (s : FrameSignature) :
  captureCanvasSignature (Some canvas) downscaleWidth = Some s ->
  let scale := Qmin 1 (inject_Z downscaleWidth / inject_Z (intrinsicWidth canvas)) in
  intrinsicWidth canvas <> 0%Z /\ intrinsicHeight canvas <> 0%Z /\
  fs_width s = Z.max 1 (Js.round (inject_Z (intrinsicWidth canvas) * scale)) /\
  fs_height s = Z.max 1 (Js.round (inject_Z (intrinsicHeight canvas) * scale)) /\
  fs_luminances s =
    luminancesOf (cv_imageData canvas (fs_width s) (fs_height s)) (fs_width s) (fs_height s).
Proof.
  unfold captureCanvasSignature.
  destruct (intrinsicWidth canvas =? 0)%Z eqn:Ew; [discriminate|].
  destruct (intrinsicHeight canvas =? 0)%Z eqn:Eh; [discriminate|].
  simpl orb. cbv iota.
  destruct (cv_bufferContext canvas); [|discriminate]. simpl negb. cbv iota.
  intro H. injection H as <-. cbn [fs_width fs_height fs_luminances].
  apply Z.eqb_neq in Ew, Eh. repeat split; assumption.
Qed.

Lemma capture_dims (canvas : CanvasSurface) (s : FrameSignature) :
  captureCanvasSignature (Some canvas) downscaleWidth = Some s ->
  (1 <= fs_width s)%Z /\ (1 <= fs_height s)%Z /\
  Z.of_nat (List.length (fs_luminances s)) = (fs_width s * fs_height s)%Z.
Proof.
  intro H. destruct (capture_cases canvas s H) as [_ [_ [Hw [Hh Hl]]]].
  assert (H1 : (1 <= fs_width s)%Z) by (rewrite Hw; apply Z.le_max_l).
  assert (H2 : (1 <= fs_height s)%Z) by (rewrite Hh; apply Z.le_max_l).
  split; [exact H1|]. split; [exact H2|].
  rewrite Hl. unfold luminancesOf. rewrite length_map, length_seq. apply Z2Nat.id. nia.
Qed.

(** Every captured signature has a width and a height of at least 1 and
    one luminance for each of its pixels; the luminances lie between 0 and
    255 when what the canvas reads back are bytes. *)
Theorem captured_signature_well_formed (canvas : CanvasSurface) (s : FrameSignature) :
  captureCanvasSignature (Some canvas) downscaleWidth = Some s ->
  (1 <= fs_width s)%Z /\ (1 <= fs_height s)%Z /\
  Z.of_nat (List.length (fs_luminances s)) = (fs_width s * fs_height s)%Z /\
  ((forall w h, Forall isByte (cv_imageData canvas w h)) ->
   Forall inByteRange (fs_luminances s)).
Proof.
  intro H. destruct (capture_dims canvas s H) as [H1 [H2 H3]].
  split; [exact H1|]. split; [exact H2|]. split; [exact H3|].
  destruct (capture_cases canvas s H) as [_ [_ [_ [_ Hl]]]].
  intro Hbytes. rewrite Hl. unfold luminancesOf. apply Forall_forall.
  intros q Hq. apply in_map_iff in Hq. destruct Hq as [i [<- _]].
  apply luminance_inByteRange; apply byteAt_isByte; apply Hbytes.
Qed.

Lemma captured_signature_well_formed_witness :
  exists s, captureCanvasSignature (Some (Samples.pixel 255)) downscaleWidth = Some s /\
            (1 <= fs_width s)%Z /\ Forall inByteRange (fs_luminances s).
Proof.
  eexists. split; [reflexivity|].
  destruct (captured_signature_well_formed (Samples.pixel 255) _ eq_refl) as [H1 [_ [_ H]]].
  split; [exact H1|]. apply H. intros w h.
  repeat constructor; unfold isByte; lia.
Defined.

(** Two snapshots of canvases of the same intrinsic size can always be
    compared: their delta is a number, and it is not negative. *)
Theorem captures_of_one_size_are_comparable
  (canvas1 canvas2 : CanvasSurface) (s1 s2 : FrameSignature) :
  captureCanvasSignature (Some canvas1) downscaleWidth = Some s1 ->
  captureCanvasSignature (Some canvas2) downscaleWidth = Some s2 ->
  intrinsicWidth canvas1 = intrinsicWidth canvas2 ->
  intrinsicHeight canvas1 = intrinsicHeight canvas2 ->
  exists d, computeSignatureDelta (Some s1) (Some s2) = Some d /\ 0 <= d.
Proof.
  intros H1 H2 Ew Eh.
  destruct (capture_cases canvas1 s1 H1) as [_ [_ [Hw1 [Hh1 _]]]].
  destruct (capture_cases canvas2 s2 H2) as [_ [_ [Hw2 [Hh2 _]]]].
  destruct (capture_dims canvas1 s1 H1) as [P1 [Q1 L1]].
  destruct (capture_dims canvas2 s2 H2) as [_ [_ L2]].
  cbv zeta in *. rewrite <- Ew in Hw2, Hh2. rewrite <- Eh in Hh2.
  assert (Ewidth : fs_width s1 = fs_width s2) by congruence.
  assert (Eheight : fs_height s1 = fs_height s2) by congruence.
  assert (El : List.length (fs_luminances s1) = List.length (fs_luminances s2)).
  { apply Nat2Z.inj. rewrite L1, L2, Ewidth, Eheight. reflexivity. }
  assert (Hpos : List.length (fs_luminances s1) <> 0%nat).
  { intro E. rewrite E in L1. simpl in L1. nia. }
  assert (Hd : exists d, computeSignatureDelta (Some s1) (Some s2) = Some d).
  { unfold computeSignatureDelta.
    rewrite Ewidth, Eheight, !Z.eqb_refl, <- El, Nat.eqb_refl.
    rewrite (proj2 (Nat.eqb_neq _ _) Hpos). simpl. eexists. reflexivity. }
  destruct Hd as [d Hd]. exists d. split; [exact Hd|].
  destruct (delta_cases s1 s2 d Hd) as [Hn ->].
  apply Qle_shift_div_l; [unfold Qlt, inject_Z; simpl; lia|].
  rewrite Qmult_0_l. apply totalDifference_nonneg.
Qed.

Lemma captures_of_one_size_are_comparable_witness :
  exists d, computeSignatureDelta
              (captureCanvasSignature (Some (Samples.pixel 0)) downscaleWidth)
              (captureCanvasSignature (Some (Samples.pixel 255)) downscaleWidth) = Some d /\
            0 <= d.
Proof.
  exact (captures_of_one_size_are_comparable (Samples.pixel 0) (Samples.pixel 255) _ _
           eq_refl eq_refl eq_refl eq_refl).
Defined.

Lemma scaled_side_unscaled (cap w side : Z) :
  (0 < w <= cap)%Z -> (1 <= side)%Z ->
  Z.max 1 (Js.round (inject_Z side * Qmin 1 (inject_Z cap / inject_Z w))) = side.
Proof.
  intros Hw Hside.
  assert (Hone : Qmin 1 (inject_Z cap / inject_Z w) == 1).
  { apply Q.min_l. apply Qle_shift_div_l.
    - apply inject_Z_pos. lia.
    - rewrite Qmult_1_l, <- Zle_Qle. lia. }
  rewrite (round_comp _ (inject_Z side)) by (rewrite Hone; apply Qmult_1_r).
  rewrite round_inject_Z. lia.
Qed.

Lemma scaled_width_capped (cap w : Z) :
  (1 <= cap < w)%Z ->
  Z.max 1 (Js.round (inject_Z w * Qmin 1 (inject_Z cap / inject_Z w))) = cap.
Proof.
  intros Hw.
  assert (Hq : ~ inject_Z w == 0).
  { intro E. unfold Qeq, inject_Z in E. simpl in E. lia. }
  assert (Hmin : Qmin 1 (inject_Z cap / inject_Z w) == inject_Z cap / inject_Z w).
  { apply Q.min_r. apply Qle_shift_div_r.
    - apply inject_Z_pos. lia.
    - rewrite Qmult_1_l, <- Zle_Qle. lia. }
  rewrite (round_comp _ (inject_Z cap)) by (rewrite Hmin; apply Qmult_div_r; exact Hq).
  rewrite round_inject_Z. lia.
Qed.

(** A canvas is never scaled up: when it is at most 128 wide, its
    signature has the canvas's own width and height; when it is wider,
    the signature is exactly 128 wide. *)
Theorem capture_never_scales_up (canvas : CanvasSurface) (s : FrameSignature) :
  captureCanvasSignature (Some canvas) downscaleWidth = Some s ->
  (0 < intrinsicWidth canvas)%Z -> (0 < intrinsicHeight canvas)%Z ->
  fs_width s = Z.min (intrinsicWidth canvas) 128 /\
  ((intrinsicWidth canvas <= 128)%Z -> fs_height s = intrinsicHeight canvas).
Proof.
  intros H Hw Hh. destruct (capture_cases canvas s H) as [_ [_ [Ew [Eh _]]]].
  cbv zeta in Ew, Eh. unfold downscaleWidth in Ew, Eh.
  destruct (Z_le_gt_dec (intrinsicWidth canvas) 128) as [Hs | Hb].
  - split.
    + rewrite Ew, scaled_side_unscaled by lia. lia.
    + intros _. rewrite Eh. apply scaled_side_unscaled; lia.
  - split; [|lia]. rewrite Ew, scaled_width_capped by lia. lia.
Qed.

Lemma capture_never_scales_up_witness :
  exists s, captureCanvasSignature (Some Samples.tallCanvas) downscaleWidth = Some s /\
            fs_width s = 100%Z /\ fs_height s = 1000%Z.
Proof.
  eexists. split; [reflexivity|].
  destruct (capture_never_scales_up Samples.tallCanvas _ eq_refl) as [Hw Hh];
    [reflexivity | reflexivity |].
  split; [exact Hw | apply Hh; discriminate].
Defined.

End CaptureShape.

Section CapturedDelta.
Import HealthScan.
Local Open Scope Q_scope.

(** C4.  The frame signatures that the scan compares are those that
    [captureCanvasSignature] returns.  Two of them with the same
    dimensions and the same luminance buffer have the delta 0, exactly; two
    of them that differ in width or in height have no delta, never a
    number. *)
Theorem delta_of_captured_signatures
  (canvasA canvasB : CanvasSurface) (a b : FrameSignature) :
  captureCanvasSignature (Some canvasA) downscaleWidth = Some a ->
  captureCanvasSignature (Some canvasB) downscaleWidth = Some b ->
  (fs_width a = fs_width b -> fs_height a = fs_height b ->
   fs_luminances a = fs_luminances b ->
   exists d, computeSignatureDelta (Some a) (Some b) = Some d /\ d == 0) /\
  (fs_width a <> fs_width b \/ fs_height a <> fs_height b ->
   computeSignatureDelta (Some a) (Some b) = None).
Proof.
  intros Ha Hb.
  destruct (capture_dims canvasA a Ha) as [Hw [Hh Hlen]].
  assert (Hne : fs_luminances a <> []).
  { intro E. rewrite E in Hlen. simpl in Hlen. nia. }
  destruct (delta_equal_or_incomparable a b) as [Hsame Hdiffer].
  split.
  - intros Ew Eh El. exact (Hsame Ew Eh El Hne).
  - exact Hdiffer.
Qed.

Lemma delta_of_captured_signatures_witness :
  (exists d, computeSignatureDelta
               (captureCanvasSignature (Some (Samples.pixel 255)) downscaleWidth)
               (captureCanvasSignature (Some (Samples.pixel 255)) downscaleWidth) = Some d /\
             d == 0) /\
  computeSignatureDelta
    (captureCanvasSignature (Some (Samples.pixel 0)) downscaleWidth)
    (captureCanvasSignature (Some Samples.tallCanvas) downscaleWidth) = None.
Proof.
  split.
  - exact (proj1 (delta_of_captured_signatures (Samples.pixel 255) (Samples.pixel 255) _ _
                    eq_refl eq_refl) eq_refl eq_refl eq_refl).
  - apply (proj2 (delta_of_captured_signatures (Samples.pixel 0) Samples.tallCanvas _ _
                    eq_refl eq_refl)).
    left. discriminate.
Defined.

End CapturedDelta.

(** ** More on the movement key *)

Section MovementKey.
Import HealthScan.

Ltac each_char c := destruct c as [[] [] [] [] [] [] [] []]; try reflexivity; try discriminate.

Lemma lowerChar_isLower (c : ascii) : Js.isUpper c = true -> Js.isLower (Js.lowerChar c) = true.
Proof. each_char c. Qed.

Lemma isMovementKey_letter (c : ascii) :
  Js.isLower c = true -> isMovementKey (String c EmptyString) = true.
Proof. each_char c. Qed.

Lemma arrowMap_shape (upper key : string) :
  arrowMap upper = Some key -> isMovementKey key = true.
Proof.
  unfold arrowMap.
  destruct (String.eqb upper "LEFT"); [intro H; injection H as <-; reflexivity|].
  destruct (String.eqb upper "RIGHT"); [intro H; injection H as <-; reflexivity|].
  destruct (String.eqb upper "UP"); [intro H; injection H as <-; reflexivity|].
  destruct (String.eqb upper "DOWN"); [intro H; injection H as <-; reflexivity|].
  discriminate.
Qed.

Lemma keyOfToken_shape (token key : string) :
  keyOfToken token = Some key -> isMovementKey key = true.
Proof.
  unfold keyOfToken. generalize (Js.toUpperCase token). intro upper.
  assert (Htail : match arrowMap upper with
                  | Some k => Some k
                  | None =>
                      if Js.isSingleCapital upper then Some (Js.toLowerCase upper)
                      else if String.eqb upper "SPACE" || String.eqb upper "SPACEBAR"
                           then Some "Space" else None
                  end = Some key -> isMovementKey key = true).
  { destruct (arrowMap upper) as [k|] eqn:Ea.
    - intro H. injection H as <-. exact (arrowMap_shape upper k Ea).
    - destruct (Js.isSingleCapital upper) eqn:Es.
      + destruct upper as [|c [|d r]]; simpl in Es; try discriminate.
        intro H. injection H as <-. simpl.
        apply isMovementKey_letter, lowerChar_isLower, Es.
      + destruct (String.eqb upper "SPACE" || String.eqb upper "SPACEBAR");
          [intro H; injection H as <-; reflexivity | discriminate]. }
  destruct (Js.startsWith "ARROW" upper); [|exact Htail].
  destruct (Js.includes "LEFT" upper); [intro H; injection H as <-; reflexivity|].
  destruct (Js.includes "RIGHT" upper); [intro H; injection H as <-; reflexivity|].
  destruct (Js.includes "UP" upper); [intro H; injection H as <-; reflexivity|].
  destruct (Js.includes "DOWN" upper); [intro H; injection H as <-; reflexivity|].
  exact Htail.
Qed.

Lemma selectFirstMovementKey_keyOfInput (game : ManifestGame) :
  selectFirstMovementKey game =
  match movementControls game with
  | [] => None
  | first :: _ => keyOfInput (mc_input first)
  end.
Proof.
  unfold selectFirstMovementKey, movementControls, keyOfInput.
  destruct (mg_controls game) as [c|]; [|reflexivity].
  destruct (ct_movement c) as [[|first rest]|]; reflexivity.
Qed.

(** A key that [selectFirstMovementKey] returns is one of the four arrow
    keys, Space, or a single small letter. *)
Theorem movement_key_is_arrow_space_or_letter (game : ManifestGame) (key : string) :
  selectFirstMovementKey game = Some key -> isMovementKey key = true.
Proof.
  rewrite selectFirstMovementKey_keyOfInput.
  destruct (movementControls game) as [|first rest]; [discriminate|].
  unfold keyOfInput.
  destruct (String.eqb (mc_input first) ""); [discriminate|].
  match goal with |- context [String.eqb ?seg ""] => destruct (String.eqb seg "") end;
    [discriminate|].
  apply keyOfToken_shape.
Qed.

Lemma movement_key_is_arrow_space_or_letter_witness :
  isMovementKey "w" = true.
Proof. exact (movement_key_is_arrow_space_or_letter Samples.pong "w" eq_refl). Defined.

Lemma upperChar_idem (c : ascii) : Js.upperChar (Js.upperChar c) = Js.upperChar c.
Proof. each_char c. Qed.

Lemma isWord_upperChar (c : ascii) : Js.isWord (Js.upperChar c) = Js.isWord c.
Proof. each_char c. Qed.

Lemma isSpace_upperChar (c : ascii) : Js.isSpace (Js.upperChar c) = Js.isSpace c.
Proof. each_char c. Qed.

Lemma upperChar_space (c : ascii) : Js.isSpace c = true -> Js.upperChar c = c.
Proof. each_char c. Qed.

Lemma eqb_upperChar_bar (c : ascii) : Ascii.eqb (Js.upperChar c) "|"%char = Ascii.eqb c "|"%char.
Proof. each_char c. Qed.

Lemma eqb_upperChar_slash (c : ascii) : Ascii.eqb (Js.upperChar c) "/"%char = Ascii.eqb c "/"%char.
Proof. each_char c. Qed.

Lemma eqb_upperChar_comma (c : ascii) : Ascii.eqb (Js.upperChar c) ","%char = Ascii.eqb c ","%char.
Proof. each_char c. Qed.

Lemma toUpperCase_idem (s : string) : Js.toUpperCase (Js.toUpperCase s) = Js.toUpperCase s.
Proof. induction s as [|c r IH]; simpl; [reflexivity|]. rewrite upperChar_idem, IH. reflexivity. Qed.

Lemma toUpperCase_splitFirst (sep : ascii) (s : string) :
  (forall c, Ascii.eqb (Js.upperChar c) sep = Ascii.eqb c sep) ->
  Js.toUpperCase (Js.splitFirst sep s) = Js.splitFirst sep (Js.toUpperCase s).
Proof.
  intro H. induction s as [|c r IH]; simpl; [reflexivity|].
  rewrite H. destruct (Ascii.eqb c sep); simpl; [reflexivity|]. rewrite IH. reflexivity.
Qed.

Lemma startsWithWord_toUpperCase (s : string) :
  Js.startsWithWord (Js.toUpperCase s) = Js.startsWithWord s.
Proof. destruct s; simpl; [reflexivity | apply isWord_upperChar]. Qed.

Lemma toUpperCase_beforeOr (s : string) :
  forall prevWord, Js.toUpperCase (Js.beforeOr prevWord s) = Js.beforeOr prevWord (Js.toUpperCase s).
Proof.
  induction s as [|c r IH]; intro prevWord; [reflexivity|].
  cbn [Js.beforeOr Js.toUpperCase]. rewrite upperChar_idem, isWord_upperChar.
  assert (E : match Js.toUpperCase r with
              | String d r' => Ascii.eqb (Js.upperChar d) "R"%char && negb (Js.startsWithWord r')
              | EmptyString => false
              end =
              match r with
              | String d r' => Ascii.eqb (Js.upperChar d) "R"%char && negb (Js.startsWithWord r')
              | EmptyString => false
              end).
  { destruct r as [|d r']; [reflexivity|].
    cbn [Js.toUpperCase]. rewrite upperChar_idem, startsWithWord_toUpperCase. reflexivity. }
  rewrite E.
  match goal with |- context [if ?b then _ else _] => destruct b end; [reflexivity|].
  cbn [Js.toUpperCase]. rewrite IH. reflexivity.
Qed.

Lemma toUpperCase_trimStart (s : string) :
  Js.toUpperCase (Js.trimStart s) = Js.trimStart (Js.toUpperCase s).
Proof.
  induction s as [|c r IH]; [reflexivity|].
  cbn [Js.trimStart Js.toUpperCase]. rewrite isSpace_upperChar.
  destruct (Js.isSpace c); [exact IH | reflexivity].
Qed.

Lemma toUpperCase_trimEnd (s : string) :
  Js.toUpperCase (Js.trimEnd s) = Js.trimEnd (Js.toUpperCase s).
Proof.
  induction s as [|c r IH]; [reflexivity|].
  cbn [Js.trimEnd Js.toUpperCase]. rewrite <- IH, isSpace_upperChar.
  destruct (Js.trimEnd r); cbn [Js.toUpperCase]; [|reflexivity].
  destruct (Js.isSpace c); reflexivity.
Qed.

Lemma toUpperCase_collapseFrom (s : string) :
  forall inRun, Js.toUpperCase (Js.collapseFrom inRun s) = Js.collapseFrom inRun (Js.toUpperCase s).
Proof.
  induction s as [|c r IH]; intro inRun; [reflexivity|].
  cbn [Js.collapseFrom Js.toUpperCase]. rewrite isSpace_upperChar.
  destruct (Js.isSpace c); [destruct inRun|]; cbn [Js.toUpperCase]; rewrite IH; reflexivity.
Qed.

Lemma eqb_empty_toUpperCase (s : string) :
  String.eqb (Js.toUpperCase s) "" = String.eqb s "".
Proof. destruct s; reflexivity. Qed.

Lemma keyOfToken_toUpperCase (token : string) :
  keyOfToken (Js.toUpperCase token) = keyOfToken token.
Proof. unfold keyOfToken. rewrite toUpperCase_idem. reflexivity. Qed.

Lemma keyOfInput_toUpperCase (rawInput : string) :
  keyOfInput (Js.toUpperCase rawInput) = keyOfInput rawInput.
Proof.
  unfold keyOfInput, Js.trim, Js.splitOrFirst, Js.collapseSpaces.
  rewrite eqb_empty_toUpperCase.
  rewrite <- (toUpperCase_splitFirst "|"%char) by exact eqb_upperChar_bar.
  rewrite <- toUpperCase_beforeOr.
  rewrite <- (toUpperCase_splitFirst "/"%char) by exact eqb_upperChar_slash.
  rewrite <- (toUpperCase_splitFirst ","%char) by exact eqb_upperChar_comma.
  rewrite <- toUpperCase_trimStart, <- toUpperCase_trimEnd, eqb_empty_toUpperCase.
  rewrite <- toUpperCase_collapseFrom, keyOfToken_toUpperCase.
  reflexivity.
Qed.

(** The key depends on the input description of the first movement
    control alone, and not on the case of its letters: two entries whose
    first descriptions differ in case only have the same key. *)
Theorem movement_key_ignores_case
  (game game' : ManifestGame) (first first' : ManifestControl) (rest rest' : list ManifestControl) :
  movementControls game = first :: rest ->
  movementControls game' = first' :: rest' ->
  Js.toUpperCase (mc_input first') = Js.toUpperCase (mc_input first) ->
  selectFirstMovementKey game' = selectFirstMovementKey game.
Proof.
  intros H H' E. rewrite !selectFirstMovementKey_keyOfInput, H, H'.
  rewrite <- (keyOfInput_toUpperCase (mc_input first')), E.
  apply keyOfInput_toUpperCase.
Qed.

Lemma movement_key_ignores_case_witness :
  selectFirstMovementKey
    (Samples.gameWith "g" working (Some [Samples.control "w/s OR up/down"; Samples.control "x"]))
  = selectFirstMovementKey Samples.pong.
Proof.
  exact (movement_key_ignores_case
           Samples.pong
           (Samples.gameWith "g" working
              (Some [Samples.control "w/s OR up/down"; Samples.control "x"]))
           (Samples.control "W/S or Up/Down") (Samples.control "w/s OR up/down")
           [] [Samples.control "x"] eq_refl eq_refl eq_refl).
Defined.

End MovementKey.

(** ** More on the probe and on the scan *)

Section ProbeResults.
Import HealthScan.

(** The note of a probed entry lists the causes that its flags show, in
    the order stalled, errors, motion, response; it is 'Pass' exactly when
    no cause holds.  With 'Pass' the status is the previous one, with any
    other note it is 'broken'. *)
Theorem probe_note_matches_flags (timeout : Q) (game : ManifestGame) (o : ProbeObservation) :
  let r := probeGame timeout game o in
  hr_note r = match expectedIssues timeout r with [] => Pass | l => Issues l end /\
  (hr_note r = Pass <->
   shouldMarkBroken (hr_stalled r) (hr_noMotion r) (hr_noResponse r) (hr_errors r) = false) /\
  (hr_note r = Pass -> hr_status r = hr_previousStatus r) /\
  (hr_note r <> Pass -> hr_status r = broken).
Proof.
  cbv zeta. unfold expectedIssues, probeGame, shouldMarkBroken.
  cbn [hr_note hr_stalled hr_noMotion hr_noResponse hr_errors hr_status hr_previousStatus].
  destruct (isReady o);
    [destruct (noMotionOf o (animationActivity o)); destruct (noResponseOf game o)|];
    destruct (3 <? _); simpl;
    repeat split; intros; try reflexivity; try discriminate; try congruence.
Qed.

(** An entry that is not ready is not tested any further: what the
    snapshots, the animation loop and the keyboard would have shown does
    not enter its result; it has neither the noMotion nor the noResponse
    flag, its status is 'broken', and its note starts with the readiness
    issue. *)
Theorem stalled_entry_is_not_tested
  (timeout : Q) (game : ManifestGame) (o o' : ProbeObservation) :
  hr_stalled (probeGame timeout game o) = true ->
  readySignal o' = readySignal o ->
  fallbackCanvas o' = fallbackCanvas o ->
  health o' = health o ->
  consoleErrorCount o' = consoleErrorCount o ->
  let r := probeGame timeout game o in
  probeGame timeout game o' = r /\
  hr_ready r = false /\ hr_noMotion r = false /\ hr_noResponse r = false /\
  hr_status r = broken /\
  exists more, hr_note r = Issues (ReadyNotObserved timeout :: more).
Proof.
  intros Hs E1 E2 E3 E4. cbv zeta.
  assert (Hr : isReady o = false).
  { unfold probeGame in Hs. cbn [hr_stalled] in Hs. destruct (isReady o); [discriminate|reflexivity]. }
  assert (Hr' : isReady o' = false) by (unfold isReady in *; rewrite E1, E2; exact Hr).
  unfold probeGame. rewrite Hr, Hr', E3, E4.
  cbn [hr_ready hr_noMotion hr_noResponse hr_status hr_note].
  repeat split. simpl. eexists. reflexivity.
Qed.

Lemma stalled_entry_is_not_tested_witness :
  let r := probeGame Samples.readinessTimeout Samples.pong Samples.dead in
  probeGame Samples.readinessTimeout Samples.pong Samples.deadButDrawn = r /\
  hr_status r = broken.
Proof.
  cbv zeta.
  destruct (stalled_entry_is_not_tested Samples.readinessTimeout Samples.pong
              Samples.dead Samples.deadButDrawn eq_refl eq_refl eq_refl eq_refl eq_refl)
    as [H [_ [_ [_ [Hs _]]]]].
  split; [exact H | exact Hs].
Defined.

Lemma scanFrom_aligned (timeout : Q) (observe : nat -> ProbeObservation)
      (games : list ManifestGame) :
  forall i,
    Forall2 (fun g r =>
               hr_id r = mg_id g /\ hr_title r = mg_title g /\
               hr_previousStatus r = mg_status g /\
               (hr_status r = broken \/ hr_status r = mg_status g) /\
               (mg_status g = missing_assets -> r = excludedResult g))
            games (scanFrom timeout observe i games).
Proof.
  induction games as [|g rest IH]; intro i; simpl; constructor; [|apply IH].
  destruct (statusEqb (mg_status g) missing_assets) eqn:E.
  - repeat split; try reflexivity. right. reflexivity.
  - repeat split.
    + unfold probeGame. cbn [hr_status]. destruct (shouldMarkBroken _ _ _ _); [left|right]; reflexivity.
    + intro H. rewrite H in E. discriminate.
Qed.

Lemma Forall2_map_eq {A B C : Type} (f : A -> C) (g : B -> C) (l : list A) (l' : list B) :
  Forall2 (fun a b => g b = f a) l l' -> map g l' = map f l.
Proof. induction 1; simpl; [reflexivity | congruence]. Qed.

Lemma Forall2_right {A B : Type} (R : A -> B -> Prop) (P : B -> Prop) (l : list A) (l' : list B) :
  (forall a b, R a b -> P b) -> Forall2 R l l' -> Forall P l'.
Proof. intros H. induction 1; constructor; eauto. Qed.

(** Every result that the scan produces comes from an entry of the
    manifest and carries its id, title and previous status.  Its status is
    'broken' or that previous status, so the scan never makes an entry
    better than it was.  The result of an entry without its assets keeps
    the entry's status, has every flag set and the note that the entry was
    excluded; no other result has that note. *)
Theorem scan_never_promotes
  (timeout : Q) (observe : nat -> ProbeObservation) (games : list ManifestGame)
  (r : HealthResult) :
  In r (scanGames timeout observe games) ->
  exists game,
    In game games /\
    hr_id r = mg_id game /\ hr_title r = mg_title game /\
    hr_previousStatus r = mg_status game /\
    (hr_status r = broken \/ hr_status r = mg_status game) /\
    (mg_status game = missing_assets ->
     hr_status r = missing_assets /\ hr_note r = Excluded /\
     hr_stalled r = true /\ hr_noMotion r = true /\ hr_noResponse r = true) /\
    (mg_status game <> missing_assets -> hr_note r <> Excluded).
Proof.
  intro Hin.
  destruct (scanFrom_In _ _ _ _ _ Hin) as [game [Hg [[Hm Hr] | [Hm [o Hr]]]]];
    subst r; exists game; (split; [exact Hg|]);
    (split; [reflexivity|]); (split; [reflexivity|]); (split; [reflexivity|]).
  - split; [right; reflexivity|]. split.
    + intros _. cbn [excludedResult hr_status hr_note hr_stalled hr_noMotion hr_noResponse].
      repeat split. exact Hm.
    + intro H. contradiction.
  - split; [|split].
    + unfold probeGame. cbn [hr_status].
      destruct (shouldMarkBroken _ _ _ _); [left | right]; reflexivity.
    + intro H. contradiction.
    + intros _. unfold probeGame. cbn [hr_note].
      match goal with |- match ?l with _ => _ end <> _ => destruct l end; discriminate.
Qed.

Lemma scan_never_promotes_witness :
  exists game,
    In game [Samples.twin; Samples.mushrooms] /\
    hr_id (excludedResult Samples.mushrooms) = mg_id game /\
    hr_title (excludedResult Samples.mushrooms) = mg_title game /\
    hr_previousStatus (excludedResult Samples.mushrooms) = mg_status game /\
    (hr_status (excludedResult Samples.mushrooms) = broken \/
     hr_status (excludedResult Samples.mushrooms) = mg_status game) /\
    (mg_status game = missing_assets ->
     hr_status (excludedResult Samples.mushrooms) = missing_assets /\
     hr_note (excludedResult Samples.mushrooms) = Excluded /\
     hr_stalled (excludedResult Samples.mushrooms) = true /\
     hr_noMotion (excludedResult Samples.mushrooms) = true /\
     hr_noResponse (excludedResult Samples.mushrooms) = true) /\
    (mg_status game <> missing_assets -> hr_note (excludedResult Samples.mushrooms) <> Excluded).
Proof.
  apply (scan_never_promotes Samples.readinessTimeout (fun _ => Samples.lively)
           [Samples.twin; Samples.mushrooms] (excludedResult Samples.mushrooms)).
  right. left. reflexivity.
Defined.

Lemma working_result_has_no_flag (timeout : Q) (game : ManifestGame) (o : ProbeObservation) :
  hr_status (probeGame timeout game o) = working ->
  Check.flagsOf (probeGame timeout game o) = [].
Proof.
  unfold probeGame, Check.flagsOf, shouldMarkBroken.
  cbn [hr_status hr_ready hr_stalled hr_noMotion hr_noResponse].
  destruct (isReady o);
    [destruct (noMotionOf o (animationActivity o)); destruct (noResponseOf game o)|];
    destruct (3 <? _); simpl; intro H; try discriminate; reflexivity.
Qed.

(** The check of [scripts/check.js] looks, in the report of the scan, for
    results with the status 'working' that carry a flag.  A report that
    the scan wrote has none: whatever was observed, a flagged result is
    'broken'. *)
Theorem check_finds_no_flagged_working_result
  (timeout : Q) (observe : nat -> ProbeObservation) (games : list ManifestGame) :
  Check.offenders (scanGames timeout observe games) = [].
Proof.
  unfold Check.offenders.
  assert (H : Forall (fun r => hr_status r = working -> Check.flagsOf r = [])
                     (scanGames timeout observe games)).
  { apply Forall_forall. intros r Hin.
    destruct (scanFrom_In _ _ _ _ _ Hin) as [game [_ [[Hm Hr] | [_ [o Hr]]]]]; subst r.
    - simpl. rewrite Hm. discriminate.
    - apply working_result_has_no_flag. }
  induction H as [|r l Hr _ IH]; [reflexivity|].
  cbn [filter]. destruct (statusEqb (hr_status r) working) eqn:E; [|exact IH].
  cbn [map filter]. apply statusEqb_eq in E. rewrite (Hr E). simpl. exact IH.
Qed.

(** The list of playable entries never holds a 'broken' one, so the last
    test of the check, for broken titles among the playable ones, finds
    nothing in any manifest. *)
Theorem no_broken_title_is_playable (games : list ManifestGame) :
  Check.brokenVisible games = [] /\
  Forall (fun g => mg_status g <> broken /\ mg_status g <> missing_assets)
         (Manifest.playableGames games).
Proof.
  unfold Check.brokenVisible, Manifest.playableGames. split.
  - induction games as [|g rest IH]; [reflexivity|].
    cbn [filter]. unfold Manifest.isPlayable at 1.
    destruct (mg_status g) eqn:E; simpl; rewrite ?E; simpl; exact IH.
  - apply Forall_forall. intros g Hg. apply filter_In in Hg. destruct Hg as [_ Hp].
    unfold Manifest.isPlayable in Hp. destruct (mg_status g); simpl in Hp;
      try discriminate; split; discriminate.
Qed.

End ProbeResults.

(** ** More on reconciliation *)

Section ReconciliationResults.
Import HealthScan.

Lemma Forall2_nth_error_ex {A B : Type} (R : A -> B -> Prop) (l : list A) (l' : list B) :
  Forall2 R l l' ->
  forall i x, nth_error l i = Some x -> exists y, nth_error l' i = Some y /\ R x y.
Proof.
  induction 1 as [|a b l l' Hab _ IH]; intros i x Hx.
  - destruct i; discriminate.
  - destruct i as [|i]; simpl in *.
    + injection Hx as <-. exists b. split; [reflexivity | exact Hab].
    + apply IH. exact Hx.
Qed.

Lemma mg_id_setStatus (g : ManifestGame) (s : GameStatus) : mg_id (setStatus g s) = mg_id g.
Proof. reflexivity. Qed.

Lemma markBroken_ids (id : string) (games : list ManifestGame) :
  map mg_id (fst (markBroken id games)) = map mg_id games.
Proof.
  induction games as [|g rest IH]; simpl; [reflexivity|].
  destruct (String.eqb (mg_id g) id); simpl; [reflexivity|].
  destruct (markBroken id rest) as [rest' found]. simpl in *. rewrite IH. reflexivity.
Qed.

Lemma markBroken_hits (id : string) (games : list ManifestGame) :
  NoDup (map mg_id games) ->
  forall i g, nth_error games i = Some g -> mg_id g = id ->
              nth_error (fst (markBroken id games)) i = Some (setStatus g broken).
Proof.
  induction games as [|g0 rest IH]; intros Hnd i g Hg Hid.
  - destruct i; discriminate.
  - simpl in Hnd. inversion Hnd as [|x l Hnotin Hnd']; subst.
    simpl. destruct (String.eqb (mg_id g0) (mg_id g)) eqn:E.
    + apply String.eqb_eq in E. destruct i as [|i]; simpl in *.
      * injection Hg as <-. reflexivity.
      * exfalso. apply Hnotin. rewrite E. apply in_map. eapply nth_error_In. exact Hg.
    + destruct i as [|i]; simpl in Hg.
      * injection Hg as <-. rewrite String.eqb_refl in E. discriminate.
      * pose proof (IH Hnd' i g Hg eq_refl) as H.
        destruct (markBroken (mg_id g) rest) as [rest' found]. exact H.
Qed.

Lemma markBroken_found (id : string) (games : list ManifestGame) :
  snd (markBroken id games) = existsb (String.eqb id) (map mg_id games).
Proof.
  induction games as [|g rest IH]; simpl; [reflexivity|].
  rewrite (String.eqb_sym id). destruct (String.eqb (mg_id g) id); simpl; [reflexivity|].
  destruct (markBroken id rest) as [rest' found]. exact IH.
Qed.

(** One step of the loop leaves every record as it is or sets its status
    to 'broken'. *)
Lemma reconcileStep_pointwise (games : list ManifestGame) (changed : bool) (r : HealthResult) :
  Forall2 (fun g g' => g' = g \/ g' = setStatus g broken)
          games (fst (reconcileStep (games, changed) r)).
Proof.
  unfold reconcileStep.
  destruct (statusEqb (hr_status r) broken && negb (statusEqb (hr_previousStatus r) broken)).
  - pose proof (markBroken_pointwise (hr_id r) games) as H.
    destruct (markBroken (hr_id r) games) as [games' found]. simpl in *.
    eapply Forall2_impl; [|exact H]. simpl. tauto.
  - simpl. induction games; constructor; [left; reflexivity | assumption].
Qed.

Lemma pointwise_ids (games games' : list ManifestGame) :
  Forall2 (fun g g' => g' = g \/ g' = setStatus g broken) games games' ->
  map mg_id games' = map mg_id games.
Proof. induction 1 as [|g g' l l' [-> | ->] _ IH]; simpl; congruence. Qed.

Lemma pointwise_keeps_broken (games games' : list ManifestGame) (i : nat) (g : ManifestGame) :
  Forall2 (fun g g' => g' = g \/ g' = setStatus g broken) games games' ->
  nth_error games i = Some g -> mg_status g = broken -> nth_error games' i = Some g.
Proof.
  intros H Hg Hb. destruct (Forall2_nth_error_ex _ _ _ H i g Hg) as [g' [Hg' [-> | ->]]].
  - exact Hg'.
  - rewrite Hg', <- Hb. f_equal. apply setStatus_same.
Qed.

Lemma fold_keeps_broken (results : list HealthResult) :
  forall games changed i g,
    nth_error games i = Some g -> mg_status g = broken ->
    nth_error (fst (fold_left reconcileStep results (games, changed))) i = Some g.
Proof.
  induction results as [|r rest IH]; intros games changed i g Hg Hb; [exact Hg|].
  cbn [fold_left].
  pose proof (reconcileStep_pointwise games changed r) as Hstep.
  destruct (reconcileStep (games, changed) r) as [games1 changed1]. simpl in Hstep.
  apply IH; [|exact Hb]. exact (pointwise_keeps_broken _ _ _ _ Hstep Hg Hb).
Qed.

Lemma fold_breaks (results : list HealthResult) :
  forall games changed i g r,
    NoDup (map mg_id games) ->
    In r results -> newlyBroken r = true ->
    nth_error games i = Some g -> mg_id g = hr_id r ->
    exists g', nth_error (fst (fold_left reconcileStep results (games, changed))) i = Some g' /\
               mg_status g' = broken.
Proof.
  induction results as [|r0 rest IH]; intros games changed i g r Hnd Hin Hnew Hg Hid;
    [destruct Hin|].
  cbn [fold_left].
  pose proof (reconcileStep_pointwise games changed r0) as Hstep.
  destruct Hin as [-> | Hin].
  - unfold reconcileStep in *. unfold newlyBroken in Hnew. rewrite Hnew in *.
    pose proof (markBroken_hits (hr_id r) games Hnd i g Hg Hid) as Hhit.
    destruct (markBroken (hr_id r) games) as [games1 found]. simpl in Hhit.
    exists (setStatus g broken). split; [|reflexivity].
    apply fold_keeps_broken; [exact Hhit | reflexivity].
  - destruct (reconcileStep (games, changed) r0) as [games1 changed1]. simpl in Hstep.
    destruct (Forall2_nth_error_ex _ _ _ Hstep i g Hg) as [g1 [Hg1 Hrel]].
    apply (IH games1 changed1 i g1 r); auto.
    + rewrite (pointwise_ids _ _ Hstep). exact Hnd.
    + destruct Hrel as [-> | ->]; exact Hid.
Qed.

(** With distinct ids, a run with --write leaves in the manifest exactly
    the statuses of its results: every entry is the entry it was, with the
    status of its own result.  So an entry is playable afterwards exactly
    when it was playable before and its result is not 'broken'. *)
Theorem reconciled_manifest_has_result_statuses
  (timeout : Q) (observe : nat -> ProbeObservation) (games : list ManifestGame) :
  NoDup (map mg_id games) ->
  let results := scanGames timeout observe games in
  let out := reconcile true results games in
  forall i g r g',
    nth_error games i = Some g ->
    nth_error results i = Some r ->
    nth_error (rc_manifest out) i = Some g' ->
    g' = setStatus g (hr_status r) /\
    (Manifest.isPlayable g' = true <->
     Manifest.isPlayable g = true /\ hr_status r <> broken).
Proof.
  intros Hnd results out i g r g' Hg Hr Hg'. subst results out.
  assert (Hentry : g' = setStatus g (hr_status r)).
  { pose proof (scanFrom_aligned timeout observe games 0) as Hal.
    fold (scanGames timeout observe games) in Hal.
    destruct (Forall2_nth_error_rel _ _ _ Hal i g r Hg Hr) as [Hid [_ [Hprev [Hstat _]]]].
    pose proof (reconcile_touched (scanGames timeout observe games) games) as Ht.
    pose proof (Forall2_nth_error_rel _ _ _ Ht i g g' Hg Hg') as Hrel.
    rewrite reconcile_manifest in Hg'.
    destruct (statusEqb (mg_status g) broken) eqn:Eb.
    - apply statusEqb_eq in Eb.
      assert (hr_status r = broken) as -> by (destruct Hstat; congruence).
      rewrite (fold_keeps_broken _ games false i g Hg Eb) in Hg'.
      injection Hg' as <-. rewrite <- Eb. symmetry. apply setStatus_same.
    - assert (Hnb : mg_status g <> broken).
      { intro E. apply statusEqb_eq in E. congruence. }
      destruct Hstat as [Hs | Hs].
      + rewrite Hs.
        assert (Hnew : newlyBroken r = true).
        { unfold newlyBroken. rewrite Hs, Hprev, Eb. reflexivity. }
        destruct (fold_breaks _ games false i g r Hnd (nth_error_In _ _ Hr) Hnew Hg
                              (eq_sym Hid)) as [g1 [Hg1 Hb1]].
        assert (g1 = g') by congruence. subst g1.
        destruct Hrel as [-> | [-> _]]; [contradiction | reflexivity].
      + rewrite Hs.
        destruct Hrel as [-> | [_ [r' [Hin [Hid' [Hs' Hp']]]]]]; [symmetry; apply setStatus_same|].
        exfalso. apply In_nth_error in Hin. destruct Hin as [j Hj].
        destruct (nth_error games j) as [h|] eqn:Eh.
        * destruct (Forall2_nth_error_rel _ _ _ Hal j h r' Eh Hj) as [Hidh _].
          assert (i = j) by (apply (nth_error_unique_id games i j g h Hnd Hg Eh); congruence).
          subst j. assert (r' = r) by congruence. subst r'. congruence.
        * apply nth_error_None in Eh.
          assert (j < List.length (scanGames timeout observe games))%nat
            by (apply nth_error_Some; congruence).
          rewrite <- (Forall2_length Hal) in H. lia. }
  split; [exact Hentry|]. rewrite Hentry.
  pose proof (scanFrom_aligned timeout observe games 0) as Hal.
  destruct (Forall2_nth_error_rel _ _ _ Hal i g r Hg Hr) as [_ [_ [_ [[Hs | Hs] _]]]].
  - rewrite Hs. unfold Manifest.isPlayable at 1. simpl. split; [discriminate | tauto].
  - rewrite Hs, setStatus_same. split; [|tauto].
    intro H. split; [exact H|]. intro Hb.
    unfold Manifest.isPlayable in H. rewrite Hb in H. discriminate.
Qed.

Lemma reconciled_manifest_has_result_statuses_witness :
  rc_manifest (reconcile true
                 (scanGames Samples.readinessTimeout (fun _ => Samples.dead)
                            [Samples.pong; Samples.twin; Samples.mushrooms])
                 [Samples.pong; Samples.twin; Samples.mushrooms])
  = [setStatus Samples.pong broken; Samples.twin; Samples.mushrooms] /\
  setStatus Samples.pong broken = setStatus Samples.pong broken.
Proof.
  split; [reflexivity|].
  refine (proj1 (reconciled_manifest_has_result_statuses Samples.readinessTimeout
                   (fun _ => Samples.dead) [Samples.pong; Samples.twin; Samples.mushrooms] _
                   0%nat Samples.pong _ (setStatus Samples.pong broken)
                   eq_refl eq_refl eq_refl)).
  repeat constructor; simpl; intuition discriminate.
Defined.

End ReconciliationResults.

Section ManifestWrites.
Import HealthScan.

Lemma fold_changed (results : list HealthResult) :
  forall games changed,
    snd (fold_left reconcileStep results (games, changed)) =
    changed || existsb (fun r => newlyBroken r && existsb (String.eqb (hr_id r)) (map mg_id games))
                       results.
Proof.
  induction results as [|r rest IH]; intros games changed; cbn [fold_left existsb].
  - rewrite orb_false_r. reflexivity.
  - unfold reconcileStep at 2. fold (newlyBroken r).
    destruct (newlyBroken r); cbn [andb orb].
    + pose proof (markBroken_found (hr_id r) games) as Hf.
      pose proof (markBroken_ids (hr_id r) games) as Hi.
      destruct (markBroken (hr_id r) games) as [games' found]. simpl in Hf, Hi.
      rewrite IH, Hi, Hf, orb_assoc. reflexivity.
    + apply IH.
Qed.

Lemma fold_unchanged (results : list HealthResult) :
  forall games changed,
    existsb newlyBroken results = false ->
    fst (fold_left reconcileStep results (games, changed)) = games.
Proof.
  induction results as [|r rest IH]; intros games changed H; [reflexivity|].
  cbn [existsb] in H. apply orb_false_iff in H. destruct H as [Hr Hrest].
  cbn [fold_left]. unfold reconcileStep at 2. fold (newlyBroken r). rewrite Hr.
  apply IH. exact Hrest.
Qed.

Lemma existsb_id_of_In (id : string) (ids : list string) :
  In id ids -> existsb (String.eqb id) ids = true.
Proof.
  intro H. apply existsb_exists. exists id. split; [exact H | apply String.eqb_refl].
Qed.

Lemma existsb_known_ids (games : list ManifestGame) (results : list HealthResult) :
  (forall r, In r results -> In (hr_id r) (map mg_id games)) ->
  existsb (fun r => newlyBroken r && existsb (String.eqb (hr_id r)) (map mg_id games)) results
  = existsb newlyBroken results.
Proof.
  induction results as [|r rest IH]; intro H; [reflexivity|].
  cbn [existsb]. rewrite IH by (intros; apply H; right; assumption).
  rewrite (existsb_id_of_In _ _ (H r (or_introl eq_refl))), andb_true_r. reflexivity.
Qed.

(** A run with --write writes the manifest exactly when one of its
    results is 'broken' with a previous status other than 'broken'; what
    it writes then is the reconciled manifest, and when it writes nothing
    the manifest in memory is the one that was read. *)
Theorem manifest_written_iff_newly_broken
  (timeout : Q) (observe : nat -> ProbeObservation) (games : list ManifestGame) :
  let results := scanGames timeout observe games in
  let out := reconcile true results games in
  rc_written out = (if existsb newlyBroken results then Some (rc_manifest out) else None) /\
  (existsb newlyBroken results = false -> rc_manifest out = games).
Proof.
  cbv zeta. split.
  - pose proof (fold_changed (scanGames timeout observe games) games false) as Hc.
    rewrite existsb_known_ids in Hc.
    + unfold reconcile.
      destruct (fold_left reconcileStep (scanGames timeout observe games) (games, false))
        as [games' changed].
      simpl in Hc. subst changed. simpl.
      destruct (existsb newlyBroken (scanGames timeout observe games)); reflexivity.
    + intros r Hr.
      pose proof (scanFrom_aligned timeout observe games 0) as Hal.
      fold (scanGames timeout observe games) in Hal.
      assert (E : map hr_id (scanGames timeout observe games) = map mg_id games).
      { apply Forall2_map_eq. eapply Forall2_impl; [|exact Hal]. simpl. tauto. }
      rewrite <- E. apply in_map. exact Hr.
  - intro H. rewrite reconcile_manifest. apply fold_unchanged. exact H.
Qed.

Lemma manifest_written_iff_newly_broken_witness :
  rc_manifest (reconcile true
                 (scanGames Samples.readinessTimeout (fun _ => Samples.lively) [Samples.twin])
                 [Samples.twin]) = [Samples.twin].
Proof.
  exact (proj2 (manifest_written_iff_newly_broken Samples.readinessTimeout
                  (fun _ => Samples.lively) [Samples.twin]) eq_refl).
Defined.

(** Marking an id as broken and then looking an id up: the entry found
    for the marked id is the one found before, now 'broken'; the entry
    found for any other id is the one found before.  The mark reports an
    entry as found exactly when the lookup finds one. *)
Theorem lookup_after_markBroken (id id' : string) (games : list ManifestGame) :
  Manifest.getGameById (fst (markBroken id games)) id' =
    (if String.eqb id' id
     then option_map (fun g => setStatus g broken) (Manifest.getGameById games id)
     else Manifest.getGameById games id') /\
  (snd (markBroken id games) = true <-> Manifest.getGameById games id <> None).
Proof.
  unfold Manifest.getGameById.
  assert (Hfound : snd (markBroken id games) = true <->
                   find (fun game => String.eqb (mg_id game) id) games <> None).
  { induction games as [|g rest IH]; simpl.
    - split; [discriminate | intro H; exfalso; apply H; reflexivity].
    - destruct (String.eqb (mg_id g) id); simpl; [split; [discriminate | reflexivity]|].
      destruct (markBroken id rest) as [rest' found]. exact IH. }
  split; [|exact Hfound]. clear Hfound.
  destruct (String.eqb_spec id' id) as [-> | Hne'].
  - induction games as [|g rest IH]; simpl; [reflexivity|].
    destruct (String.eqb (mg_id g) id) eqn:E; simpl.
    + rewrite E. reflexivity.
    + destruct (markBroken id rest) as [rest' found]. simpl in *. rewrite E. exact IH.
  - induction games as [|g rest IH]; simpl; [reflexivity|].
    destruct (String.eqb_spec (mg_id g) id) as [E | Hne]; simpl.
    + rewrite E. rewrite (proj2 (String.eqb_neq id id')) by congruence. reflexivity.
    + destruct (markBroken id rest) as [rest' found]. simpl in *.
      destruct (String.eqb (mg_id g) id'); [reflexivity | exact IH].
Qed.

End ManifestWrites.

(** ** The command line of the scan *)

Section CommandLine.
Import HealthScan.
Variable resolve : string -> string.

Lemma not_write_of_startsWith (next : string) :
  Js.startsWith "--" next = false -> next <> "--write".
Proof. intros H ->. discriminate. Qed.

Lemma In_write_cons (arg : string) (rest : list string) :
  String.eqb arg "--write" = false -> (In "--write" (arg :: rest) <-> In "--write" rest).
Proof.
  intro E. apply String.eqb_neq in E. simpl. split; [|tauto].
  intros [H | H]; [congruence | exact H].
Qed.

Lemma writeChanges_setOption (flag value : string) (o : CliOptions) :
  writeChanges (setOption flag value o) = writeChanges o.
Proof. unfold setOption. destruct (String.eqb flag "--report"); reflexivity. Qed.

Lemma parseFrom_write (n : nat) :
  forall argv o0 o,
    (List.length argv <= n)%nat ->
    parseFrom resolve argv o0 = inl o ->
    (writeChanges o = true <-> writeChanges o0 = true \/ In "--write" argv).
Proof.
  induction n as [|n IH]; intros argv o0 o Hlen H.
  - destruct argv; [|simpl in Hlen; lia]. simpl in H. injection H as <-. simpl. tauto.
  - destruct argv as [|arg rest]; [simpl in H; injection H as <-; simpl; tauto|].
    simpl in Hlen. cbn [parseFrom] in H.
    destruct (String.eqb arg "--write") eqn:Ew.
    + apply String.eqb_eq in Ew. subst arg.
      apply IH in H; [|lia]. cbn [writeChanges] in H. simpl. tauto.
    + rewrite (In_write_cons arg rest Ew).
      destruct (String.eqb (Js.splitFirst "=" arg) "--report"
                || String.eqb (Js.splitFirst "=" arg) "--markdown"); [|discriminate].
      assert (Hnext : match rest with
                      | next :: rest' =>
                          if negb (String.eqb next "") && negb (Js.startsWith "--" next)
                          then parseFrom resolve rest'
                                 (setOption (Js.splitFirst "=" arg) (resolve next) o0)
                          else inr (MissingValue (Js.splitFirst "=" arg))
                      | [] => inr (MissingValue (Js.splitFirst "=" arg))
                      end = inl o ->
                      (writeChanges o = true <-> writeChanges o0 = true \/ In "--write" rest)).
      { destruct rest as [|next rest']; [discriminate|].
        destruct (String.eqb next "") eqn:En; [discriminate|].
        destruct (Js.startsWith "--" next) eqn:Es; [discriminate|]. simpl.
        intro H'. apply IH in H'; [|simpl in Hlen; lia].
        rewrite writeChanges_setOption in H'.
        pose proof (not_write_of_startsWith next Es). intuition congruence. }
      destruct (valueFromEquals arg) as [v|]; [|exact (Hnext H)].
      destruct (String.eqb v ""); simpl in H; [exact (Hnext H)|].
      apply IH in H; [|lia]. rewrite writeChanges_setOption in H. exact H.
Qed.

(** When the arguments parse, the option to write is on exactly when
    --write is among them; without it, reconciliation writes nothing and
    leaves the manifest as it is. *)
Theorem write_option_iff_flag_given (argv : list string) (options : CliOptions) :
  parseCliArgs resolve argv = inl options ->
  (writeChanges options = true <-> In "--write" argv) /\
  (~ In "--write" argv ->
   forall results games,
     reconcile (writeChanges options) results games =
     {| rc_manifest := games; rc_written := None |}).
Proof.
  intro H. unfold parseCliArgs in H.
  pose proof (parseFrom_write (List.length argv) argv _ options (le_n _) H) as Hw.
  cbn [writeChanges] in Hw.
  assert (Hiff : writeChanges options = true <-> In "--write" argv).
  { rewrite Hw. split; [intros [E | E]; [discriminate | exact E] | tauto]. }
  split; [exact Hiff|].
  intros Hno results games.
  destruct (writeChanges options); [exfalso; apply Hno, Hiff; reflexivity | reflexivity].
Qed.

End CommandLine.

Section CommandLineForms.
Import HealthScan.
Variable resolve : string -> string.

Lemma splitFirst_without_separator (sep : ascii) (v : string) :
  Js.includes (String sep EmptyString) v = false -> Js.splitFirst sep v = v.
Proof.
  induction v as [|c r IH]; [reflexivity|].
  cbn [Js.includes Js.splitFirst String.prefix].
  destruct (Ascii.eqb_spec c sep) as [-> | Hne].
  - destruct (ascii_dec sep sep) as [_ | N]; [|contradiction].
    destruct r; discriminate.
  - intro H. apply orb_false_iff in H. destruct H as [_ H]. rewrite (IH H). reflexivity.
Qed.

Lemma parse_equals_form (flag v : string) (rest : list string) (o : CliOptions) :
  flag = "--report" \/ flag = "--markdown" ->
  v <> "" -> Js.includes "=" v = false ->
  parseFrom resolve ((flag ++ "=" ++ v) :: rest) o =
  parseFrom resolve rest (setOption flag (resolve v) o).
Proof.
  intros Hflag Hv Heq. apply String.eqb_neq in Hv.
  destruct Hflag as [-> | ->]; cbn; unfold valueFromEquals; cbn;
    rewrite (splitFirst_without_separator "="%char v Heq), Hv; reflexivity.
Qed.

Lemma parse_separate_form (flag v : string) (rest : list string) (o : CliOptions) :
  flag = "--report" \/ flag = "--markdown" ->
  v <> "" -> Js.startsWith "--" v = false ->
  parseFrom resolve (flag :: v :: rest) o =
  parseFrom resolve rest (setOption flag (resolve v) o).
Proof.
  intros Hflag Hv Hs. apply String.eqb_neq in Hv.
  destruct Hflag as [-> | ->]; cbn; unfold valueFromEquals; cbn; rewrite Hv, Hs; reflexivity.
Qed.

Lemma flag_starts_with_dashes (flag tail : string) :
  flag = "--report" \/ flag = "--markdown" -> Js.startsWith "--" (flag ++ tail) = true.
Proof. intros [-> | ->]; reflexivity. Qed.

Lemma parse_forms_agree (flag v : string) (rest : list string) :
  flag = "--report" \/ flag = "--markdown" ->
  v <> "" -> Js.startsWith "--" v = false -> Js.includes "=" v = false ->
  forall n pre o,
    (List.length pre <= n)%nat ->
    parseFrom resolve (pre ++ (flag ++ "=" ++ v) :: rest) o =
    parseFrom resolve (pre ++ flag :: v :: rest) o.
Proof.
  intros Hflag Hv Hs Heq. induction n as [|n IH]; intros pre o Hlen.
  - destruct pre; [|simpl in Hlen; lia]. cbn [app].
    rewrite parse_equals_form, parse_separate_form by assumption. reflexivity.
  - destruct pre as [|arg pre'].
    + cbn [app]. rewrite parse_equals_form, parse_separate_form by assumption. reflexivity.
    + simpl in Hlen. rewrite <- !app_comm_cons. cbn [parseFrom].
      destruct (String.eqb arg "--write"); [apply IH; lia|].
      destruct (String.eqb (Js.splitFirst "=" arg) "--report"
                || String.eqb (Js.splitFirst "=" arg) "--markdown"); [|reflexivity].
      assert (Hnext :
                match (pre' ++ (flag ++ "=" ++ v)%string :: rest)%list with
                | next :: rest' =>
                    if negb (String.eqb next "") && negb (Js.startsWith "--" next)
                    then parseFrom resolve rest'
                           (setOption (Js.splitFirst "=" arg) (resolve next) o)
                    else inr (MissingValue (Js.splitFirst "=" arg))
                | [] => inr (MissingValue (Js.splitFirst "=" arg))
                end =
                match (pre' ++ flag :: v :: rest)%list with
                | next :: rest' =>
                    if negb (String.eqb next "") && negb (Js.startsWith "--" next)
                    then parseFrom resolve rest'
                           (setOption (Js.splitFirst "=" arg) (resolve next) o)
                    else inr (MissingValue (Js.splitFirst "=" arg))
                | [] => inr (MissingValue (Js.splitFirst "=" arg))
                end).
      { destruct pre' as [|next pre'']; cbn [app].
        - rewrite (flag_starts_with_dashes flag ("=" ++ v) Hflag).
          replace (Js.startsWith "--" flag) with true
            by (destruct Hflag as [-> | ->]; reflexivity).
          rewrite !andb_false_r. reflexivity.
        - destruct (negb (String.eqb next "") && negb (Js.startsWith "--" next));
            [|reflexivity].
          apply IH. simpl in Hlen. lia. }
      destruct (valueFromEquals arg) as [w|]; [|exact Hnext].
      destruct (negb (String.eqb w "")); [apply IH; lia | exact Hnext].
Qed.

(** A report or markdown path can be given as [--flag=path] or as
    [--flag path]: wherever it stands among the arguments, both forms
    parse to the same options or to the same error, as long as the path is
    not empty, has no '=' and does not start with "--". *)
Theorem equals_form_and_separate_form_agree
  (flag v : string) (pre rest : list string) :
  flag = "--report" \/ flag = "--markdown" ->
  v <> "" -> Js.startsWith "--" v = false -> Js.includes "=" v = false ->
  parseCliArgs resolve (pre ++ (flag ++ "=" ++ v) :: rest) =
  parseCliArgs resolve (pre ++ flag :: v :: rest).
Proof.
  intros Hflag Hv Hs Heq. unfold parseCliArgs.
  apply (parse_forms_agree flag v rest Hflag Hv Hs Heq (List.length pre)). apply le_n.
Qed.

End CommandLineForms.

Section CommandLineWitnesses.
Import HealthScan.

Lemma write_option_iff_flag_given_witness :
  parseCliArgs Samples.resolveInRepo ["--report"; "out.json"; "--write"] =
    inl {| writeChanges := true; reportPath := Some "/repo/out.json"; markdownPath := None |} /\
  (true = true <-> In "--write" ["--report"; "out.json"; "--write"]).
Proof.
  split; [reflexivity|].
  exact (proj1 (write_option_iff_flag_given Samples.resolveInRepo
                  ["--report"; "out.json"; "--write"] _ eq_refl)).
Defined.

Lemma equals_form_and_separate_form_agree_witness :
  parseCliArgs Samples.resolveInRepo ["--write"; "--markdown=notes.md"; "--report"; "r.json"] =
  parseCliArgs Samples.resolveInRepo ["--write"; "--markdown"; "notes.md"; "--report"; "r.json"].
Proof.
  apply (equals_form_and_separate_form_agree Samples.resolveInRepo "--markdown" "notes.md"
           ["--write"] ["--report"; "r.json"]).
  - right. reflexivity.
  - discriminate.
  - reflexivity.
  - reflexivity.
Defined.

End CommandLineWitnesses.

(** ** The listener of the page *)

Section PageListener.
Import HealthScan.

Lemma healthListener_step (windowOrigin : string) (h : HealthWindow) (event : PageMessage) :
  let h' := healthListener windowOrigin h event in
  hw_ready h' = hw_ready h || fromBridge windowOrigin "arcade:ready" event /\
  hw_errors h' =
    hw_errors h + (if fromBridge windowOrigin "arcade:error" event then 1 else 0) /\
  List.length (hw_metrics h') =
    (List.length (hw_metrics h)
     + (if fromBridge windowOrigin "arcade:metrics" event then 1 else 0))%nat.
Proof.
  cbv zeta. unfold healthListener, fromBridge.
  destruct (String.eqb (pm_origin event) windowOrigin); simpl;
    [|rewrite orb_false_r, Z.add_0_r, Nat.add_0_r; repeat split].
  destruct (pm_data event) as [d|]; simpl;
    [|rewrite orb_false_r, Z.add_0_r, Nat.add_0_r; repeat split].
  destruct (String.eqb (pd_source d) "arcade-bridge"); simpl;
    [|rewrite orb_false_r, Z.add_0_r, Nat.add_0_r; repeat split].
  destruct (String.eqb_spec (pd_type d) "arcade:ready") as [E | _];
    [rewrite E; simpl; rewrite orb_true_r, Z.add_0_r, Nat.add_0_r; repeat split|].
  destruct (String.eqb_spec (pd_type d) "arcade:metrics") as [E | _];
    [rewrite E; simpl; rewrite orb_false_r, Z.add_0_r, length_app; repeat split|].
  destruct (String.eqb_spec (pd_type d) "arcade:error") as [E | _];
    [simpl; rewrite orb_false_r, Nat.add_0_r; repeat split|].
  rewrite orb_false_r, Z.add_0_r, Nat.add_0_r. repeat split.
Qed.

Lemma listener_fold (windowOrigin : string) (events : list PageMessage) :
  forall h,
    let h' := fold_left (healthListener windowOrigin) events h in
    hw_ready h' = hw_ready h || existsb (fromBridge windowOrigin "arcade:ready") events /\
    hw_errors h' =
      hw_errors h
      + Z.of_nat (List.length (filter (fromBridge windowOrigin "arcade:error") events)) /\
    List.length (hw_metrics h') =
      (List.length (hw_metrics h)
       + List.length (filter (fromBridge windowOrigin "arcade:metrics") events))%nat.
Proof.
  induction events as [|event rest IH]; intro h; cbv zeta.
  - simpl. rewrite orb_false_r, Z.add_0_r, Nat.add_0_r. repeat split.
  - cbn [fold_left existsb filter].
    destruct (IH (healthListener windowOrigin h event)) as [Hr [He Hm]].
    destruct (healthListener_step windowOrigin h event) as [Sr [Se Sm]].
    rewrite Hr, He, Hm, Sr, Se, Sm. clear.
    destruct (fromBridge windowOrigin "arcade:ready" event),
             (fromBridge windowOrigin "arcade:error" event),
             (fromBridge windowOrigin "arcade:metrics" event);
      cbn [List.length]; rewrite ?orb_assoc; repeat split; try lia.
Qed.

(** Whatever messages reach the page, in whatever order: its ready flag
    is true afterwards exactly when it was true before or a ready message
    of the bridge, from the page's own origin, is among them, so it never
    falls back; its error count grows by the number of such error messages
    and its list of metrics by the number of such metrics messages.
    Messages of another origin or with another source tag count for
    nothing. *)
Theorem listener_counts_bridge_messages
  (windowOrigin : string) (h : HealthWindow) (events : list PageMessage) :
  let h' := fold_left (healthListener windowOrigin) events h in
  (hw_ready h' = true <->
   hw_ready h = true \/
   exists event, In event events /\ fromBridge windowOrigin "arcade:ready" event = true) /\
  hw_errors h' =
    hw_errors h
    + Z.of_nat (List.length (filter (fromBridge windowOrigin "arcade:error") events)) /\
  List.length (hw_metrics h') =
    (List.length (hw_metrics h)
     + List.length (filter (fromBridge windowOrigin "arcade:metrics") events))%nat.
Proof.
  cbv zeta. destruct (listener_fold windowOrigin events h) as [Hr [He Hm]].
  split; [|split; [exact He | exact Hm]].
  rewrite Hr, orb_true_iff, existsb_exists. reflexivity.
Qed.

End PageListener.

(** ** More on the agent *)

Section Readiness.
Import Bridge.

Lemma readyFor_hasCanvas (doc : Document) :
  hasCanvas doc = true ->
  sendReadyOnce doc false =
    (true, Some {| rp_canvasSize :=
                     match detectCanvas doc with
                     | Some size => size
                     | None => {| width := 0; height := 0 |}
                     end;
                   rp_devicePixelRatio := pixelRatio doc |}) /\
  List.length (readyFor doc) = 1%nat.
Proof.
  unfold hasCanvas, sendReadyOnce, readyFor, detectCanvas.
  destruct (canvas doc); [split; reflexivity | discriminate].
Qed.

Lemma readyPosts_sent (triggers : list Document) : readyPosts true triggers = [].
Proof. induction triggers as [|doc rest IH]; [reflexivity | exact IH]. Qed.

Lemma readyAfter_sent (triggers : list Document) : readyAfter true triggers = true.
Proof. induction triggers as [|doc rest IH]; [reflexivity | exact IH]. Qed.

Lemma ready_characterised (triggers : list Document) :
  readyPosts false triggers =
    match find hasCanvas triggers with
    | Some doc => readyFor doc
    | None => []
    end /\
  readyAfter false triggers = existsb hasCanvas triggers.
Proof.
  induction triggers as [|doc rest [IH1 IH2]]; [split; reflexivity|].
  cbn [readyPosts find existsb]. unfold readyAfter. cbn [fold_left].
  unfold sendReadyOnce, hasCanvas, readyFor, detectCanvas.
  destruct (canvas doc) as [c|] eqn:E; simpl; rewrite ?E; simpl.
  - rewrite readyPosts_sent. split; [reflexivity | apply readyAfter_sent].
  - split; [exact IH1 | exact IH2].
Qed.

(** However often and in whatever order the triggers of [sendReadyOnce]
    fire, at most one ready message is posted: none when one was sent
    before or no trigger finds a canvas, otherwise the one for the first
    document in which a canvas is found.  The flag that a ready message
    was sent is set once a canvas was found and never cleared. *)
Theorem ready_is_posted_once (sent : bool) (triggers : list Document) :
  readyPosts sent triggers =
    (if sent then []
     else match find hasCanvas triggers with
          | Some doc => readyFor doc
          | None => []
          end) /\
  readyAfter sent triggers = sent || existsb hasCanvas triggers /\
  (List.length (readyPosts sent triggers) <= 1)%nat.
Proof.
  destruct sent.
  - rewrite readyPosts_sent, readyAfter_sent. repeat split. simpl. lia.
  - destruct (ready_characterised triggers) as [H1 H2]. rewrite H1, H2.
    repeat split.
    destruct (find hasCanvas triggers) as [doc|] eqn:E; [|simpl; lia].
    apply find_some in E. destruct E as [_ E].
    rewrite (proj2 (readyFor_hasCanvas doc E)). lia.
Qed.

Lemma pick_app {A B : Type} (f : A -> option B) (l1 l2 : list A) :
  pick f (l1 ++ l2) = (pick f l1 ++ pick f l2)%list.
Proof.
  induction l1 as [|x l IH]; [reflexivity|].
  simpl. destruct (f x); simpl; rewrite IH; reflexivity.
Qed.

Lemma pick_telemetry {B : Type} (f : FrameEvent -> option B) (posted : list Effect) :
  (forall e, f (Telemetry e) = None) -> pick f (map Telemetry posted) = [].
Proof.
  intro H. induction posted as [|e l IH]; [reflexivity|]. simpl. rewrite H. exact IH.
Qed.

Lemma onAnimationFrame_events (doc : Document) (timestamp : Q) (a : AgentState) :
  onAnimationFrame doc timestamp a =
  ({| metricsState := fst (recordFrame doc timestamp (metricsState a));
      readySent := fst (sendReadyOnce doc (readySent a)) |},
   (map Telemetry (snd (recordFrame doc timestamp (metricsState a))) ++
    match snd (sendReadyOnce doc (readySent a)) with
    | Some p => [ReadyPosted p]
    | None => []
    end ++ [Callback timestamp])%list).
Proof.
  unfold onAnimationFrame.
  destruct (recordFrame doc timestamp (metricsState a)).
  destruct (sendReadyOnce doc (readySent a)). reflexivity.
Qed.

(** Over any sequence of animation frames, the callback of the embedded
    program is called once for every frame, in order and with the
    timestamp of the frame; the ready messages are those of
    [sendReadyOnce] over the documents of the frames, and the metrics
    messages are those of the frame recorder alone. *)
Theorem animation_frames_reach_the_program (a : AgentState) (frames : list (Q * Document)) :
  pick callbackOf (animationFrames a frames) = map fst frames /\
  pick readyOf (animationFrames a frames) = readyPosts (readySent a) (map snd frames) /\
  pick metricsOfEvent (animationFrames a frames) = metricsPayloads (metricsState a) frames.
Proof.
  revert a. induction frames as [|[t doc] rest IH]; intro a; [repeat split|].
  cbn [animationFrames]. rewrite onAnimationFrame_events.
  destruct (IH {| metricsState := fst (recordFrame doc t (metricsState a));
                  readySent := fst (sendReadyOnce doc (readySent a)) |})
    as [Hc [Hr Hm]]. cbn [metricsState readySent] in Hc, Hr, Hm.
  rewrite !pick_app, Hc, Hr, Hm.
  rewrite (pick_telemetry callbackOf), (pick_telemetry readyOf) by reflexivity.
  cbn [map fst snd readyPosts]. unfold metricsPayloads. cbn [recordFrames].
  destruct (recordFrame_cases doc t (metricsState a)) as [[Hout _] | [m [Hout _]]];
    destruct (recordFrame doc t (metricsState a)) as [s' out]; simpl in Hout; subst out;
    destruct (sendReadyOnce doc (readySent a)) as [sent [p|]]; simpl; repeat split.
Qed.

End Readiness.

Section FrameWindow.
Import Bridge.
Local Open Scope Q_scope.

Lemma pushFrameTime_length (times : list Q) (delta : Q) :
  (List.length times <= 60)%nat -> (List.length (pushFrameTime times delta) <= 60)%nat.
Proof.
  intro H. unfold pushFrameTime.
  assert (E : List.length (times ++ [delta]) = S (List.length times))
    by (rewrite length_app; simpl; lia).
  destruct (60 <? List.length (times ++ [delta]))%nat eqn:C.
  - destruct (times ++ [delta])%list; simpl in *; lia.
  - apply Nat.ltb_ge in C. exact C.
Qed.

Lemma noteFrame_length (doc : Document) (t : Q) (s : MetricsState) :
  (List.length (frameTimes s) <= 60)%nat ->
  (List.length (frameTimes (noteFrame doc t s)) <= 60)%nat.
Proof.
  intro H. unfold noteFrame. destruct (lastTimestamp s); cbn [frameTimes]; [|exact H].
  apply pushFrameTime_length. exact H.
Qed.

Lemma frameTimes_recordFrame (doc : Document) (t : Q) (s : MetricsState) :
  frameTimes (fst (recordFrame doc t s)) = frameTimes (noteFrame doc t s).
Proof. unfold recordFrame. destruct (Qle_bool 100 _); reflexivity. Qed.

Lemma toFixed2_nonneg (x : Q) : 0 <= x -> 0 <= Js.toFixed2 x.
Proof.
  intro H. unfold Js.toFixed2. rewrite (proj2 (Qle_bool_iff 0 x) H).
  assert (Hf : (0 <= Qfloor (x * 100 + (1 # 2)))%Z).
  { change 0%Z with (Qfloor 0). apply Qfloor_resp_le.
    assert (0 <= x * 100) by (apply Qmult_le_0_compat; [exact H | discriminate]). lra. }
  unfold Qle. cbn [Qnum Qden]. lia.
Qed.

Lemma metricsOf_bounds (doc : Document) (s : MetricsState) :
  (List.length (frameTimes s) <= 60)%nat ->
  (0 <= frameSamples (metricsOf doc s) <= 60)%Z /\ 0 <= fps (metricsOf doc s).
Proof.
  intro H. unfold metricsOf. cbn [frameSamples fps]. split; [lia|].
  apply toFixed2_nonneg.
  match goal with |- context [if negb (Qle_bool ?a 0) then _ else _] => set (average := a) end.
  destruct (Qle_bool average 0) eqn:E; simpl; [apply Qle_refl|].
  assert (Hpos : 0 < average).
  { apply Qnot_le_lt. intro Hle. apply Qle_bool_iff in Hle. congruence. }
  apply Qle_shift_div_l; [exact Hpos|]. rewrite Qmult_0_l. discriminate.
Qed.

(** The recorder keeps at most 60 frame times, whatever frames it is
    fed; every metrics message it posts reports between 0 and 60 frame
    samples and a rate that is not negative. *)
Theorem frame_window_holds_at_most_60
  (s : MetricsState) (frames : list (Q * Document)) :
  (List.length (frameTimes s) <= 60)%nat ->
  (List.length (frameTimes (metricsAfter s frames)) <= 60)%nat /\
  Forall (fun m => (0 <= frameSamples m <= 60)%Z /\ 0 <= fps m) (metricsPayloads s frames).
Proof.
  revert s. induction frames as [|[t doc] rest IH]; intros s H; [split; [exact H | constructor]|].
  unfold metricsAfter, metricsPayloads. cbn [fold_left recordFrames fst snd].
  assert (Hnext : (List.length (frameTimes (fst (recordFrame doc t s))) <= 60)%nat).
  { rewrite frameTimes_recordFrame. apply noteFrame_length. exact H. }
  destruct (IH _ Hnext) as [IH1 IH2].
  split; [exact IH1|].
  unfold recordFrame in *.
  destruct (Qle_bool 100 (t - lastPost (noteFrame doc t s))); cbn [fst snd map app pick] in *.
  - constructor; [|exact IH2]. apply metricsOf_bounds, noteFrame_length, H.
  - exact IH2.
Qed.

Lemma frame_window_holds_at_most_60_witness :
  (List.length (frameTimes (metricsAfter Samples.freshMetrics Samples.steadyFrames)) <= 60)%nat.
Proof.
  apply (frame_window_holds_at_most_60 Samples.freshMetrics Samples.steadyFrames).
  simpl. lia.
Defined.

Lemma metricsTimes_cons (s : MetricsState) (t : Q) (doc : Document) (rest : list (Q * Document)) :
  metricsTimes s ((t, doc) :: rest) =
  ((if Qle_bool 100 (t - lastPost s) then [t] else [])
     ++ metricsTimes (fst (recordFrame doc t s)) rest)%list.
Proof.
  unfold metricsTimes. cbn [recordFrames]. unfold recordFrame.
  rewrite lastPost_noteFrame.
  destruct (Qle_bool 100 (t - lastPost s)); reflexivity.
Qed.

Lemma metricsTimes_among_frames (frames : list (Q * Document)) :
  forall s t, In t (metricsTimes s frames) -> In t (map fst frames).
Proof.
  induction frames as [|[t0 doc] rest IH]; intros s t H; [exact H|].
  rewrite metricsTimes_cons in H. apply in_app_or in H. destruct H as [H | H].
  - destruct (Qle_bool 100 (t0 - lastPost s)); [|destruct H].
    destruct H as [<- | []]. left. reflexivity.
  - right. exact (IH _ _ H).
Qed.

Lemma spaced_count (horizon : Q) (times : list Q) :
  forall last,
    spaced last times -> last <= horizon -> Forall (fun t => t <= horizon) times ->
    100 * inject_Z (Z.of_nat (List.length times)) <= horizon - last.
Proof.
  induction times as [|t rest IH]; intros last Hs Hl Hall.
  - simpl. change (inject_Z 0) with 0. lra.
  - destruct Hs as [Hgap Hs]. inversion Hall as [|x l Ht Hrest]; subst.
    pose proof (IH t Hs Ht Hrest) as H.
    cbn [List.length]. rewrite inject_Z_succ. lra.
Qed.

(** The throttle bounds the number of metrics messages by the time that
    passes: when every frame comes at or before [horizon], the recorder
    posts at most one message for every 100 ms between its last post and
    [horizon], however many frames there are. *)
Theorem metrics_volume_is_bounded
  (s : MetricsState) (frames : list (Q * Document)) (horizon : Q) :
  lastPost s <= horizon ->
  Forall (fun frame => fst frame <= horizon) frames ->
  100 * inject_Z (Z.of_nat (List.length (metricsTimes s frames))) <= horizon - lastPost s.
Proof.
  intros Hl Hall. apply spaced_count; [apply metricsTimes_spaced | exact Hl|].
  apply Forall_forall. intros t Ht.
  apply metricsTimes_among_frames, in_map_iff in Ht. destruct Ht as [frame [<- Hin]].
  rewrite Forall_forall in Hall. exact (Hall frame Hin).
Qed.

Lemma metrics_volume_is_bounded_witness :
  100 * inject_Z (Z.of_nat (List.length (metricsTimes Samples.freshMetrics Samples.steadyFrames)))
  <= 400 - 0.
Proof.
  apply (metrics_volume_is_bounded Samples.freshMetrics Samples.steadyFrames 400).
  - discriminate.
  - repeat constructor; discriminate.
Defined.

End FrameWindow.

Section MessageChannel.
Import Bridge.

(** The handler acts on nothing but the six control messages of the
    host: whenever it dispatches or posts anything, the message carried the
    source tag of the host, came from the agent's own origin and had one
    of the six control types.  Every other message is dropped. *)
Theorem handler_acts_on_host_controls_only
  (ORIGIN : string) (st : Storage) (event : MessageEvent) :
  handleMessage ORIGIN st event <> [] ->
  exists type, accepted ORIGIN event type /\ In type controlTypes.
Proof.
  unfold handleMessage, accepted.
  destruct (data event) as [d|]; [|intro H; contradiction H; reflexivity].
  destruct (String.eqb_spec (source d) BRIDGE_PARENT_SOURCE) as [Es | _];
    [|intro H; contradiction H; reflexivity].
  destruct (String.eqb_spec (origin event) ORIGIN) as [Eo | _];
    [|intro H; contradiction H; reflexivity].
  destruct (Bridge.type d) as [type|] eqn:Et; [|intro H; contradiction H; reflexivity].
  cbn [negb].
  destruct (String.eqb type ""); [intro H; contradiction H; reflexivity|].
  intro H. exists type. split; [exists d; repeat split; assumption|].
  unfold isPauseControl, controlTypes in *.
  destruct (String.eqb_spec type "arcade:focus"); [subst; simpl; tauto|].
  destruct (String.eqb_spec type "arcade:blur"); [subst; simpl; tauto|].
  destruct (String.eqb_spec type "arcade:pause"); [subst; simpl; tauto|].
  destruct (String.eqb_spec type "arcade:resume"); [subst; simpl; tauto|].
  cbn [orb] in H.
  destruct (String.eqb_spec type "arcade:toggle-help"); [subst; simpl; tauto|].
  destruct (String.eqb_spec type "arcade:request-highscores"); [subst; simpl; tauto|].
  contradiction H. reflexivity.
Qed.

Lemma handler_acts_on_host_controls_only_witness :
  exists type, accepted "http://127.0.0.1:5173" (Samples.controlMessage "arcade:blur") type /\
               In type controlTypes.
Proof.
  apply (handler_acts_on_host_controls_only "http://127.0.0.1:5173" Samples.failingStorage).
  discriminate.
Defined.

(** A pause control that the host sends with [postToGame] to an iframe
    of its own origin reaches the agent and is answered there: the event is
    dispatched again and the pause-state echo names the type that was
    sent.  To an iframe of another origin nothing is delivered. *)
Theorem host_control_is_echoed
  (frameOrigin hostOrigin type : string) (st : Storage) :
  (frameOrigin <> hostOrigin -> Inject.postToGame (Some frameOrigin) hostOrigin type = None) /\
  (frameOrigin = hostOrigin ->
   isPauseControl type = true ->
   exists event,
     Inject.postToGame (Some frameOrigin) hostOrigin type = Some event /\
     handleMessage frameOrigin st event =
       [DispatchWindow type; DispatchDocument type; Post "arcade:pause-state" (PauseState type)]).
Proof.
  unfold Inject.postToGame. split.
  - intro H. apply String.eqb_neq in H. rewrite H. reflexivity.
  - intros -> Hp. rewrite String.eqb_refl. eexists. split; [reflexivity|].
    rewrite (handleMessage_accepted hostOrigin st _ type).
    + rewrite Hp. destruct (String.eqb_spec type ""); [subst; discriminate | reflexivity].
    + eexists. repeat split.
Qed.

Lemma host_control_is_echoed_witness :
  exists event,
    Inject.postToGame (Some "http://127.0.0.1:5173") "http://127.0.0.1:5173" "arcade:resume"
    = Some event /\
    handleMessage "http://127.0.0.1:5173" Samples.failingStorage event =
      [DispatchWindow "arcade:resume"; DispatchDocument "arcade:resume";
       Post "arcade:pause-state" (PauseState "arcade:resume")].
Proof.
  exact (proj2 (host_control_is_echoed "http://127.0.0.1:5173" "http://127.0.0.1:5173"
                  "arcade:resume" Samples.failingStorage) eq_refl eq_refl).
Defined.

End MessageChannel.

Section Handshake.
Import Bridge.

Lemma delivered_same (ORIGIN type : string) (payload : option HealthScan.PagePayload) :
  Inject.delivered ORIGIN ORIGIN type payload =
  Some {| HealthScan.pm_origin := ORIGIN;
          HealthScan.pm_data :=
            Some {| HealthScan.pd_source := BRIDGE_SOURCE;
                    HealthScan.pd_type := type;
                    HealthScan.pd_payload := payload |} |}.
Proof. unfold Inject.delivered. rewrite String.eqb_refl. reflexivity. Qed.

Lemma fromBridge_delivered (ORIGIN type type' : string) (payload : option HealthScan.PagePayload) :
  HealthScan.fromBridge ORIGIN type'
    {| HealthScan.pm_origin := ORIGIN;
       HealthScan.pm_data :=
         Some {| HealthScan.pd_source := BRIDGE_SOURCE;
                 HealthScan.pd_type := type;
                 HealthScan.pd_payload := payload |} |}
  = String.eqb type type'.
Proof. unfold HealthScan.fromBridge. simpl. rewrite String.eqb_refl. reflexivity. Qed.

(** The messages of one frame, as the page receives them. *)
Lemma frame_messages (ORIGIN : string) (doc : Document) (t : Q) (a : AgentState) :
  let events := snd (onAnimationFrame doc t a) in
  let messages := pick (Inject.messageOf ORIGIN ORIGIN) events in
  existsb (HealthScan.fromBridge ORIGIN "arcade:ready") messages =
    negb (readySent a) && hasCanvas doc /\
  List.length (filter (HealthScan.fromBridge ORIGIN "arcade:metrics") messages) =
    List.length (snd (recordFrame doc t (metricsState a))).
Proof.
  cbv zeta. rewrite onAnimationFrame_events. cbn [snd].
  rewrite !pick_app.
  destruct (recordFrame_cases doc t (metricsState a)) as [[Hout _] | [m [Hout _]]];
    rewrite Hout; cbn [map pick Inject.messageOf app];
    unfold sendReadyOnce, hasCanvas, detectCanvas;
    destruct (readySent a); cbn [snd pick Inject.messageOf app negb andb];
    try (destruct (canvas doc); cbn [snd pick Inject.messageOf app]);
    rewrite ?delivered_same; cbn [app existsb filter];
    rewrite ?fromBridge_delivered; split; reflexivity.
Qed.

Lemma handshake_fold (ORIGIN : string) (frames : list (Q * Document)) :
  forall a,
    let messages := pick (Inject.messageOf ORIGIN ORIGIN) (animationFrames a frames) in
    existsb (HealthScan.fromBridge ORIGIN "arcade:ready") messages =
      negb (readySent a) && existsb hasCanvas (map snd frames) /\
    List.length (filter (HealthScan.fromBridge ORIGIN "arcade:metrics") messages) =
      List.length (metricsTimes (metricsState a) frames).
Proof.
  induction frames as [|[t doc] rest IH]; intro a; cbv zeta.
  - simpl. rewrite andb_false_r. split; reflexivity.
  - cbn [animationFrames].
    destruct (frame_messages ORIGIN doc t a) as [Hr Hm].
    pose proof (onAnimationFrame_events doc t a) as He.
    destruct (onAnimationFrame doc t a) as [a' out]. cbn [snd] in Hr, Hm.
    injection He as Ea Eo.
    destruct (IH a') as [IHr IHm].
    rewrite pick_app, existsb_app, filter_app, length_app, Hr, Hm, IHr, IHm.
    rewrite Ea. cbn [readySent metricsState map snd existsb].
    split.
    + unfold sendReadyOnce, hasCanvas, detectCanvas.
      destruct (readySent a); [reflexivity|].
      destruct (canvas doc); simpl; [reflexivity|]. reflexivity.
    + rewrite metricsTimes_cons. rewrite length_app. f_equal.
      unfold recordFrame. rewrite lastPost_noteFrame.
      destruct (Qle_bool 100 (t - lastPost (metricsState a))); reflexivity.
Qed.

(** The handshake from the agent to the scan, for a page of the agent's
    origin: after any sequence of animation frames, the page's ready flag
    is set exactly when it was set before or the agent, not having sent
    its ready message yet, saw a canvas in one of the frames; and the page
    has recorded one metrics sample for every metrics message that the
    recorder posted. *)
Theorem agent_frames_reach_the_scan
  (ORIGIN : string) (h : HealthScan.HealthWindow) (a : AgentState)
  (frames : list (Q * Document)) :
  let h' := Inject.healthAfterFrames ORIGIN h a frames in
  HealthScan.hw_ready h' =
    HealthScan.hw_ready h || (negb (readySent a) && existsb hasCanvas (map snd frames)) /\
  List.length (HealthScan.hw_metrics h') =
    (List.length (HealthScan.hw_metrics h)
     + List.length (metricsTimes (metricsState a) frames))%nat.
Proof.
  cbv zeta. unfold Inject.healthAfterFrames.
  destruct (listener_fold ORIGIN
              (pick (Inject.messageOf ORIGIN ORIGIN) (animationFrames a frames)) h)
    as [Hr [_ Hm]].
  destruct (handshake_fold ORIGIN frames a) as [Er Em].
  rewrite Hr, Hm, Er, Em. split; reflexivity.
Qed.

End Handshake.

Section RollingWindow.
Import Bridge.

Lemma lastN_short {A : Type} (n : nat) (l : list A) :
  (List.length l <= n)%nat -> lastN n l = l.
Proof.
  intro H. unfold lastN. replace (List.length l - n)%nat with 0%nat by lia. reflexivity.
Qed.

Lemma lastN_length {A : Type} (n : nat) (l : list A) : (List.length (lastN n l) <= n)%nat.
Proof. unfold lastN. rewrite length_skipn. lia. Qed.

Lemma lastN_push {A : Type} (n : nat) (l : list A) (x : A) :
  lastN n (lastN n l ++ [x]) = lastN n (l ++ [x]).
Proof.
  unfold lastN at 2.
  assert (E : (skipn (List.length l - n) l ++ [x])%list
              = skipn (List.length l - n) (l ++ [x])).
  { rewrite skipn_app. replace (List.length l - n - List.length l)%nat with 0%nat by lia.
    reflexivity. }
  rewrite E. unfold lastN. rewrite skipn_skipn. f_equal.
  rewrite length_skipn, !length_app. simpl. lia.
Qed.

Lemma pushFrameTime_lastN (times : list Q) (delta : Q) :
  (List.length times <= 60)%nat -> pushFrameTime times delta = lastN 60 (times ++ [delta]).
Proof.
  intro H. unfold pushFrameTime.
  assert (E : List.length (times ++ [delta]) = S (List.length times))
    by (rewrite length_app; simpl; lia).
  destruct (60 <? List.length (times ++ [delta]))%nat eqn:C.
  - apply Nat.ltb_lt in C. unfold lastN.
    replace (List.length (times ++ [delta]) - 60)%nat with 1%nat by lia.
    destruct (times ++ [delta])%list; reflexivity.
  - apply Nat.ltb_ge in C. symmetry. apply lastN_short. exact C.
Qed.

Lemma lastTimestamp_recordFrame (doc : Document) (t : Q) (s : MetricsState) :
  lastTimestamp (fst (recordFrame doc t s)) = Some t.
Proof.
  unfold recordFrame, noteFrame.
  destruct (lastTimestamp s); destruct (Qle_bool 100 _); reflexivity.
Qed.

Lemma rolling_window (frames : list (Q * Document)) :
  forall s all,
    frameTimes s = lastN 60 all ->
    frameTimes (metricsAfter s frames) =
    lastN 60 (all ++ deltasFrom (lastTimestamp s) (map fst frames)).
Proof.
  induction frames as [|[t doc] rest IH]; intros s all H.
  - simpl. rewrite app_nil_r. exact H.
  - unfold metricsAfter. cbn [fold_left map fst snd deltasFrom].
    change (fold_left (fun s0 frame => fst (recordFrame (snd frame) (fst frame) s0)) rest
                      (fst (recordFrame doc t s)))
      with (metricsAfter (fst (recordFrame doc t s)) rest).
    rewrite app_assoc.
    rewrite <- (lastTimestamp_recordFrame doc t s).
    apply IH. rewrite frameTimes_recordFrame. unfold noteFrame.
    destruct (lastTimestamp s) as [previous|]; cbn [frameTimes].
    + rewrite pushFrameTime_lastN by (rewrite H; apply lastN_length).
      rewrite H. apply lastN_push.
    + rewrite app_nil_r. exact H.
Qed.

(** The frame times that the recorder keeps are a rolling window: after
    any sequence of frames they are the 60 most recent of the frame times
    it had, followed by the differences between consecutive timestamps. *)
Theorem frame_times_are_the_60_most_recent
  (s : MetricsState) (frames : list (Q * Document)) :
  (List.length (frameTimes s) <= 60)%nat ->
  frameTimes (metricsAfter s frames) =
  lastN 60 (frameTimes s ++ deltasFrom (lastTimestamp s) (map fst frames)).
Proof.
  intro H. apply rolling_window. symmetry. apply lastN_short. exact H.
Qed.

Lemma frame_times_are_the_60_most_recent_witness :
  frameTimes (metricsAfter Samples.freshMetrics Samples.steadyFrames) =
  lastN 60 ([] ++ deltasFrom None (map fst Samples.steadyFrames)).
Proof.
  apply (frame_times_are_the_60_most_recent Samples.freshMetrics Samples.steadyFrames).
  simpl. lia.
Defined.

End RollingWindow.

Section AnimationWindow.
Import HealthScan.
Local Open Scope Q_scope.

Lemma countTicks_spec (start gap : Q) (readings : list Q) :
  forall ticks previous activity,
    countTicks start readings ticks = Measured activity ->
    (2000 <= aa_elapsedMs activity /\
     (ticks < aa_tickCount activity <= ticks + Z.of_nat (List.length readings))%Z) /\
    (gapsAtMost gap previous readings ->
     previous - start <= gap * inject_Z ticks ->
     aa_elapsedMs activity <= gap * inject_Z (aa_tickCount activity)).
Proof.
  induction readings as [|reading rest IH]; intros ticks previous activity H; [discriminate|].
  cbn [countTicks] in H.
  destruct (Qle_bool 2000 (reading - start)) eqn:E.
  - injection H as <-. cbn [aa_elapsedMs aa_tickCount List.length]. split.
    + split; [apply Qle_bool_iff; exact E | lia].
    + intros [Hgap _] Hprev. rewrite inject_Z_plus. change (inject_Z 1) with 1. lra.
  - destruct (IH (ticks + 1)%Z reading activity H) as [[H1 H2] H3]. split.
    + split; [exact H1|]. cbn [List.length]. lia.
    + intros [Hgap Hrest] Hprev. apply H3; [exact Hrest|].
      rewrite inject_Z_plus. change (inject_Z 1) with 1. lra.
Qed.

(** When the animation measurement completes, its window is at least
    2000 ms long and it has counted at least one frame and no more than
    there were.  If no frame came later than [gap] after the one before,
    the count times [gap] covers the window; so frames that come less than
    2000/30 ms apart give a count above 30, the floor of the motion test. *)
Theorem animation_window_is_at_least_2s
  (start gap : Q) (readings : list Q) (activity : AnimationActivity) :
  measureAnimationActivity (Some (start, readings)) = Measured activity ->
  2000 <= aa_elapsedMs activity /\
  (1 <= aa_tickCount activity <= Z.of_nat (List.length readings))%Z /\
  (gapsAtMost gap start readings ->
   2000 <= gap * inject_Z (aa_tickCount activity) /\
   (gap * 30 < 2000 -> (aa_tickCount activity <=? 30)%Z = false)).
Proof.
  unfold measureAnimationActivity. intro H.
  destruct (countTicks_spec start gap readings 0%Z start activity H) as [[H1 H2] H3].
  split; [exact H1|]. split; [lia|].
  intro Hgap.
  assert (Hcover : aa_elapsedMs activity <= gap * inject_Z (aa_tickCount activity)).
  { apply H3; [exact Hgap|]. change (inject_Z 0) with 0. lra. }
  split; [lra|].
  intro Hsmall. apply Z.leb_gt.
  destruct (Z_lt_le_dec 30 (aa_tickCount activity)) as [Hlt | Hle]; [exact Hlt|].
  exfalso.
  assert (Hq : inject_Z (aa_tickCount activity) <= 30).
  { change 30 with (inject_Z 30). rewrite <- Zle_Qle. exact Hle. }
  assert (Hq1 : 1 <= inject_Z (aa_tickCount activity)).
  { change 1 with (inject_Z 1). rewrite <- Zle_Qle. lia. }
  destruct (Qlt_le_dec 0 gap) as [Hp | Hn]; nra.
Qed.

Lemma animation_window_is_at_least_2s_witness :
  measureAnimationActivity (Some (0, [700; 1400; 2000; 2700])) =
    Measured {| aa_tickCount := 3; aa_elapsedMs := 2000 - 0 |} /\
  2000 <= 700 * inject_Z 3.
Proof.
  split; [reflexivity|].
  destruct (animation_window_is_at_least_2s 0 700 [700; 1400; 2000; 2700]
              {| aa_tickCount := 3; aa_elapsedMs := 2000 - 0 |} eq_refl) as [_ [_ H]].
  apply H. simpl. repeat split; discriminate.
Defined.

End AnimationWindow.

(** ** The ids that discovery gives to games *)

Section Slugs.
Import Discover.

Ltac all_chars c := destruct c as [[] [] [] [] [] [] [] []]; try reflexivity; try discriminate.

Lemma dash_not_slugChar (c : ascii) : Ascii.eqb c "-"%char = true -> isSlugChar c = false.
Proof. all_chars c. Qed.

Lemma dashFrom_loose (s : string) :
  forall inRun, looseFrom (negb inRun) (dashFrom inRun s) = true.
Proof.
  induction s as [|c r IH]; intro inRun; [reflexivity|].
  cbn [dashFrom]. destruct (isSlugChar c) eqn:E.
  - cbn [looseFrom]. rewrite E. exact (IH false).
  - destruct inRun; [exact (IH true)|].
    cbn [looseFrom negb]. exact (IH true).
Qed.

Lemma dropLeadingDashes_loose (s : string) :
  forall mayDash, looseFrom mayDash s = true -> looseFrom false (dropLeadingDashes s) = true.
Proof.
  induction s as [|c r IH]; intros mayDash H; [reflexivity|].
  cbn [dropLeadingDashes]. cbn [looseFrom] in H.
  destruct (Ascii.eqb c "-"%char) eqn:Ed.
  - rewrite (dash_not_slugChar c Ed) in H. simpl in H.
    apply andb_true_iff in H. destruct H as [_ H]. exact (IH false H).
  - destruct (isSlugChar c) eqn:E; [|discriminate].
    cbn [looseFrom]. rewrite E. exact H.
Qed.

Lemma dropTrailingDashes_slug (s : string) :
  forall mayDash, looseFrom mayDash s = true -> slugFrom mayDash (dropTrailingDashes s) = true.
Proof.
  induction s as [|c r IH]; intros mayDash H; [reflexivity|].
  cbn [dropTrailingDashes]. cbn [looseFrom] in H.
  destruct (isSlugChar c) eqn:E.
  - pose proof (IH true H) as Hr.
    destruct (dropTrailingDashes r) as [|d r'] eqn:Er.
    + destruct (Ascii.eqb c "-"%char); [reflexivity|]. cbn [slugFrom]. rewrite E. reflexivity.
    + cbn [slugFrom]. rewrite E. exact Hr.
  - apply andb_true_iff in H. destruct H as [H Hloose].
    apply andb_true_iff in H. destruct H as [Hd Hm].
    pose proof (IH false Hloose) as Hr.
    destruct (dropTrailingDashes r) as [|d r'] eqn:Er.
    + rewrite Hd. reflexivity.
    + cbn [slugFrom] in *. rewrite E, Hd, Hm. simpl. exact Hr.
Qed.

(** The id that discovery derives from a file name is made of small
    letters, digits and dashes only; it neither starts nor ends with a
    dash, and it has no two dashes in a row. *)
Theorem slug_has_the_shape_of_an_id (name : string) : isSlug (slugify name) = true.
Proof.
  unfold isSlug, slugify, trimDashes.
  apply dropTrailingDashes_slug.
  apply (dropLeadingDashes_loose _ true).
  exact (dashFrom_loose _ false).
Qed.

Lemma lowerChar_slug (c : ascii) :
  isSlugChar c = true \/ Ascii.eqb c "-"%char = true ->
  Js.lowerChar c = c /\ Ascii.eqb (Js.lowerChar c) "."%char = false.
Proof. intros [H | H]; revert H; all_chars c; intros; split; reflexivity. Qed.

Lemma slug_chars (s : string) :
  forall mayDash, slugFrom mayDash s = true ->
    Js.toLowerCase s = s /\ stripHtml s = s.
Proof.
  induction s as [|c r IH]; intros mayDash H; [split; reflexivity|].
  cbn [slugFrom] in H.
  assert (Hc : isSlugChar c = true \/ Ascii.eqb c "-"%char = true).
  { destruct (isSlugChar c); [left; reflexivity|]. right.
    apply andb_true_iff in H. destruct H as [H _].
    apply andb_true_iff in H. destruct H as [H _].
    apply andb_true_iff in H. destruct H as [H _]. exact H. }
  assert (Hr : exists m, slugFrom m r = true).
  { destruct (isSlugChar c); [exists true; exact H|]. exists false.
    apply andb_true_iff in H. destruct H as [_ H]. exact H. }
  destruct Hr as [m Hr]. destruct (IH m Hr) as [IH1 IH2].
  destruct (lowerChar_slug c Hc) as [Hl Hdot].
  cbn [Js.toLowerCase stripHtml]. rewrite IH1, Hl.
  split; [reflexivity|].
  replace (String.eqb (String c r) ".html") with false.
  - rewrite IH2. reflexivity.
  - rewrite Hl in Hdot. cbn [String.eqb]. rewrite Hdot. reflexivity.
Qed.

Lemma slug_dashFrom (s : string) :
  forall mayDash inRun,
    slugFrom mayDash s = true -> (inRun = true -> mayDash = false) -> dashFrom inRun s = s.
Proof.
  induction s as [|c r IH]; intros mayDash inRun H Hrun; [reflexivity|].
  cbn [slugFrom] in H. cbn [dashFrom].
  destruct (isSlugChar c) eqn:E.
  - rewrite (IH true false H) by discriminate. reflexivity.
  - apply andb_true_iff in H. destruct H as [H Hr].
    apply andb_true_iff in H. destruct H as [H _].
    apply andb_true_iff in H. destruct H as [Hd Hm].
    destruct inRun; [rewrite (Hrun eq_refl) in Hm; discriminate|].
    rewrite (IH false true Hr) by reflexivity.
    apply Ascii.eqb_eq in Hd. subst c. reflexivity.
Qed.

Lemma slug_dropTrailingDashes (s : string) :
  forall mayDash, slugFrom mayDash s = true -> dropTrailingDashes s = s.
Proof.
  induction s as [|c r IH]; intros mayDash H; [reflexivity|].
  cbn [slugFrom] in H. cbn [dropTrailingDashes].
  destruct (isSlugChar c) eqn:E.
  - rewrite (IH true H). destruct r; [|reflexivity].
    destruct (Ascii.eqb c "-"%char) eqn:Ed; [|reflexivity].
    rewrite (dash_not_slugChar c Ed) in E. discriminate.
  - apply andb_true_iff in H. destruct H as [H Hr].
    apply andb_true_iff in H. destruct H as [_ Hne].
    rewrite (IH false Hr). destruct r; [discriminate | reflexivity].
Qed.

Lemma slug_dropLeadingDashes (s : string) :
  slugFrom false s = true -> dropLeadingDashes s = s.
Proof.
  destruct s as [|c r]; [reflexivity|]. cbn [slugFrom dropLeadingDashes].
  destruct (Ascii.eqb c "-"%char) eqn:Ed; [|reflexivity].
  rewrite (dash_not_slugChar c Ed), andb_false_r. discriminate.
Qed.

Lemma slugify_of_slug (s : string) : isSlug s = true -> slugify s = s.
Proof.
  unfold isSlug, slugify, trimDashes. intro H.
  destruct (slug_chars s false H) as [H1 H2].
  rewrite H1, H2, (slug_dashFrom s false false H) by discriminate.
  rewrite (slug_dropLeadingDashes s H). exact (slug_dropTrailingDashes s false H).
Qed.

(** A string that has the shape of an id is its own slug, so taking the
    slug of a slug changes nothing. *)
Theorem slugify_is_idempotent (name s : string) :
  slugify (slugify name) = slugify name /\
  (isSlug s = true -> slugify s = s).
Proof.
  split; [|apply slugify_of_slug].
  apply slugify_of_slug. unfold isSlug, slugify, trimDashes.
  apply dropTrailingDashes_slug. apply (dropLeadingDashes_loose _ true).
  exact (dashFrom_loose _ false).
Qed.

Lemma slugify_is_idempotent_witness :
  slugify (slugify "Pixel Pong.html") = slugify "Pixel Pong.html" /\
  slugify "pixel-pong" = "pixel-pong".
Proof.
  split.
  - exact (proj1 (slugify_is_idempotent "Pixel Pong.html" "pixel-pong")).
  - exact (proj2 (slugify_is_idempotent "Pixel Pong.html" "pixel-pong") eq_refl).
Defined.

Example slug_of_magic_mushrooms : slugify "magic mushrooms.html" = "magic-mushrooms".
Proof. reflexivity. Qed.

Example slug_of_vroom : slugify "Vroom.HTML" = "vroom".
Proof. reflexivity. Qed.

Example slug_of_odd_name : slugify "__My  Game (v2)!.html" = "my-game-v2".
Proof. reflexivity. Qed.

End Slugs.
